(** * prompt-registry: templates, their variable contract, and the registry

    A shallow embedding of [prompt_registry/template.py],
    [prompt_registry/registry.py] and the commands of
    [prompt_registry/cli.py] that do more than format a table.

    Conventions of the embedding.
    - A Python [dict] is an association list in insertion order with
      dictionary assignment ([Dict.set]): iteration order decides the order
      of error messages, so it is kept.
    - Methods that mutate the registry or touch the disk run in a state
      monad whose state survives a raised exception, as a Python object
      does.
    - Jinja2 is a dependency, not code of this repository: it enters as the
      interface [Engine].  The claims about concrete template bodies are
      stated for every engine that interpolates [{{ name }}] the way Jinja2
      does ([Interpolating]).
    - Document fields are taken at the types the dataclass annotations
      declare ([name : str], [version : int], ...). *)

From Stdlib Require Import ZArith String Ascii List Bool Lia Permutation Sorted.
From Stdlib Require Import DecimalString.
Import ListNotations.
Local Open Scope string_scope.
Local Open Scope Z_scope.

(* ------------------------------------------------------------------ *)
(** ** Python values, strings and exceptions *)

(** The values a variable can carry: [None] and the YAML scalars. *)
Inductive value : Type :=
| VNone
| VBool (b : bool)
| VInt (z : Z)
| VStr (s : string).

Definition is_none (v : value) : bool :=
  match v with VNone => true | _ => false end.

(** [str(z)] for a Python [int]. *)
Definition str_int (z : Z) : string := NilZero.string_of_int (Z.to_int z).

(** [str(v)], which is what an interpolation writes into the output. *)
Definition py_str (v : value) : string :=
  match v with
  | VNone => "None"
  | VBool true => "True"
  | VBool false => "False"
  | VInt z => str_int z
  | VStr s => s
  end.

(** [sep.join(l)]. *)
Definition join (sep : string) (l : list string) : string := String.concat sep l.

(** The exception classes the two modules raise, catch or let through;
    each carries [str(e)]. *)
Inductive exn : Type :=
| ValueError (msg : string)
| YAMLError (msg : string)
| TemplateSyntaxError (msg : string)
| UndefinedError (msg : string)
| KeyError (msg : string)
| OtherError (msg : string).

Definition str_exn (e : exn) : string :=
  match e with
  | ValueError m | YAMLError m | TemplateSyntaxError m
  | UndefinedError m | KeyError m | OtherError m => m
  end.

Inductive result (A : Type) : Type :=
| Ok (a : A)
| Raise (e : exn).
Arguments Ok {A} a.
Arguments Raise {A} e.

(* ------------------------------------------------------------------ *)
(** ** Dictionaries *)

Module Dict.

Class Key (K : Type) := {
  eqb : K -> K -> bool;
  eqb_spec : forall x y, reflect (x = y) (eqb x y)
}.

#[global] Instance string_key : Key string :=
  {| eqb := String.eqb; eqb_spec := String.eqb_spec |}.
#[global] Instance Z_key : Key Z :=
  {| eqb := Z.eqb; eqb_spec := Z.eqb_spec |}.

Definition t (K V : Type) : Type := list (K * V).

Section Ops.
Context {K V : Type} `{Key K}.

Definition empty : t K V := [].

(** [d.get(k)] *)
Fixpoint get (k : K) (d : t K V) : option V :=
  match d with
  | [] => None
  | (k', v) :: d' => if eqb k k' then Some v else get k d'
  end.

(** [k in d] *)
Definition contains (k : K) (d : t K V) : bool :=
  match get k d with Some _ => true | None => false end.

(** [d[k] = v]: an existing key keeps its place, a new one goes last. *)
Fixpoint set (k : K) (v : V) (d : t K V) : t K V :=
  match d with
  | [] => [(k, v)]
  | (k', v') :: d' =>
      if eqb k k' then (k', v) :: d' else (k', v') :: set k v d'
  end.

(** [d.keys()] *)
Definition keys (d : t K V) : list K := map fst d.

(** What every Python dictionary satisfies: no key twice. *)
Definition wf (d : t K V) : Prop := NoDup (keys d).
End Ops.

End Dict.

(** [max(l)] for a non-empty list of integers, read as head and tail. *)
Definition py_max (x : Z) (l : list Z) : Z := fold_left Z.max l x.

(** [sorted(l)] on integers. *)
Fixpoint insert_sorted (x : Z) (l : list Z) : list Z :=
  match l with
  | [] => [x]
  | y :: l' => if x <=? y then x :: l else y :: insert_sorted x l'
  end.

Definition sorted (l : list Z) : list Z := fold_right insert_sorted [] l.

(** [sorted(l)] on strings: Python compares by code point, which on the
    bytes of UTF-8 text is the order of [String.leb]. *)
Fixpoint insert_sorted_str (x : string) (l : list string) : list string :=
  match l with
  | [] => [x]
  | y :: l' => if String.leb x y then x :: l else y :: insert_sorted_str x l'
  end.

Definition sorted_str (l : list string) : list string :=
  fold_right insert_sorted_str [] l.

(** A loop or comprehension over [l] whose body may raise. *)
Fixpoint fold_result {A B} (f : A -> B -> result A) (l : list B) (a : A)
  : result A :=
  match l with
  | [] => Ok a
  | b :: l' =>
      match f a b with
      | Ok a' => fold_result f l' a'
      | Raise e => Raise e
      end
  end.


(* ------------------------------------------------------------------ *)
(** ** Monads: exceptions, and state that survives them *)

Class Monad (m : Type -> Type) : Type := {
  ret : forall {A}, A -> m A;
  bind : forall {A B}, m A -> (A -> m B) -> m B
}.

Declare Scope monad_scope.
Delimit Scope monad_scope with monad.
Notation "x <- c ;; k" := (bind c (fun x => k))
  (at level 61, c at next level, right associativity) : monad_scope.
Notation "c ;; k" := (bind c (fun _ => k))
  (at level 61, right associativity) : monad_scope.
Local Open Scope monad_scope.

#[export] Instance result_monad : Monad result := {|
  ret := fun A a => Ok a;
  bind := fun A B c k => match c with Ok a => k a | Raise e => Raise e end
|}.

(** A computation over a state [S]: the state reached is returned also
  when an exception leaves the computation. *)
Definition state_exn (S A : Type) : Type := S -> result A * S.

#[export] Instance state_exn_monad (S : Type) : Monad (state_exn S) := {|
  ret := fun A a s => (Ok a, s);
  bind := fun A B c k s =>
    match c s with
    | (Ok a, s') => k a s'
    | (Raise e, s') => (Raise e, s')
    end
|}.

Definition raise {S A} (e : exn) : state_exn S A := fun s => (Raise e, s).
Definition lift {S A} (r : result A) : state_exn S A := fun s => (r, s).
Definition gets {S A} (f : S -> A) : state_exn S A := fun s => (Ok (f s), s).
Definition modify {S} (f : S -> S) : state_exn S unit := fun s => (Ok tt, f s).

(** [try: c except <class chosen by h> as e: raise h e]; an exception for
    which [h] gives [None] passes through. *)
Definition try_except {S A} (c : state_exn S A) (h : exn -> option exn)
  : state_exn S A :=
  fun s =>
    match c s with
    | (Raise e, s') =>
        (Raise (match h e with Some e' => e' | None => e end), s')
    | r => r
    end.

(** [for x in l: body x] *)
Fixpoint for_each {S A} (l : list A) (body : A -> state_exn S unit)
  : state_exn S unit :=
  match l with
  | [] => ret tt
  | x :: l' => body x ;; for_each l' body
  end.

(* ------------------------------------------------------------------ *)
(** ** The templating engine (Jinja2) as an interface *)

Class Engine : Type := {
  compiled : Type;
  ast : Type;
  (** [env.from_string(source)] *)
  from_string : string -> result compiled;
  (** [env.parse(source)] *)
  parse : string -> result ast;
  (** [meta.find_undeclared_variables(ast)], in the order in which the
      returned set is iterated *)
  find_undeclared_variables : ast -> list string;
  (** [template.render] applied to the context as keyword arguments *)
  render_compiled : compiled -> Dict.t string value -> result string
}.

(* ------------------------------------------------------------------ *)
(** ** Documents as [yaml.safe_load] returns them *)

Module Raw.

(** The mapping written under one variable name. *)
Record var_mapping : Type := {
  required : option bool;
  default : option value;
  description : option string
}.

(** What stands under a variable name: a mapping, or anything else. *)
Inductive var_spec : Type :=
| SpecDict (m : var_mapping)
| SpecOther.

(** What stands under ["variables"]: a mapping, or a value without
    [.items()]; [e] is the text of the [AttributeError] it gives. *)
Inductive variables_field : Type :=
| VarsDict (items : Dict.t string var_spec)
| VarsOther (e : string).

(** A top-level mapping; [None] is an absent key. *)
Record document : Type := {
  name : option string;
  version : option Z;
  document_description : option string;
  variables : option variables_field;
  template : option string
}.

(** What [yaml.safe_load] returns: [None] for an empty file, a mapping,
    or a value on which [PromptTemplate.from_dict] raises ([e] is the
    text of that exception). *)
Inductive parsed : Type :=
| PNone
| PDict (d : document)
| POther (e : string).

End Raw.

(* ------------------------------------------------------------------ *)
(** ** template.py *)

Module VariableSpec.

Record t : Type := {
  name : string;
  required : bool;
  default : value;
  description : string
}.

(** The dataclass defaults: [required=True, default=None, description=""]. *)
Definition make (name : string) (required : bool) : t :=
  {| name := name; required := required; default := VNone; description := "" |}.

Definition from_dict (name : string) (data : Raw.var_mapping) : t :=
  {| name := name;
     required := match Raw.required data with Some b => b | None => true end;
     default := match Raw.default data with Some v => v | None => VNone end;
     description := match Raw.description data with Some s => s | None => "" end |}.

End VariableSpec.

Module PromptTemplate.

Record t : Type := {
  name : string;
  template : string;
  version : Z;
  description : string;
  variables : Dict.t string VariableSpec.t
}.

Definition set_name (self : t) (n : string) : t :=
  {| name := n; template := template self; version := version self;
     description := description self; variables := variables self |}.

Definition from_dict (data : Raw.document) : result t :=
  variables <-
    match Raw.variables data with
    | None => Ok Dict.empty
    | Some (Raw.VarsOther e) => Raise (OtherError e)
    | Some (Raw.VarsDict items) =>
        Ok (fold_left
              (fun variables '(var_name, var_spec) =>
                 match var_spec with
                 | Raw.SpecDict m =>
                     Dict.set var_name (VariableSpec.from_dict var_name m) variables
                 | Raw.SpecOther =>
                     Dict.set var_name (VariableSpec.make var_name true) variables
                 end)
              items Dict.empty)
    end ;;
  Ok {| name := match Raw.name data with Some n => n | None => "unnamed" end;
        template := match Raw.template data with Some s => s | None => "" end;
        version := match Raw.version data with Some v => v | None => 1 end;
        description :=
          match Raw.document_description data with Some s => s | None => "" end;
        variables := variables |}.

Definition to_dict (self : t) : Raw.document :=
  {| Raw.name := Some (name self);
     Raw.version := Some (version self);
     Raw.document_description := Some (description self);
     Raw.variables :=
       Some (Raw.VarsDict
         (fold_left
            (fun result_variables '(var_name, var_spec) =>
               let var_dict :=
                 {| Raw.required := Some (VariableSpec.required var_spec);
                    Raw.description := Some (VariableSpec.description var_spec);
                    Raw.default :=
                      if negb (VariableSpec.required var_spec)
                         && negb (is_none (VariableSpec.default var_spec))
                      then Some (VariableSpec.default var_spec)
                      else None |} in
               Dict.set var_name (Raw.SpecDict var_dict) result_variables)
            (variables self) Dict.empty));
     Raw.template := Some (template self) |}.

Definition validate_inputs (self : t) (inputs : Dict.t string value)
  : list string :=
  let errors : list string := [] in
  (* Check required variables *)
  let errors :=
    app errors
    (flat_map
       (fun '(var_name, var_spec) =>
          if VariableSpec.required var_spec && negb (Dict.contains var_name inputs)
          then ["Required variable '" ++ var_name ++ "' is missing"]
          else [])
       (variables self) ) in
  (* Check for unknown variables *)
  let errors :=
    app errors
    (flat_map
       (fun var_name =>
          if negb (Dict.contains var_name (variables self))
          then ["Unknown variable '" ++ var_name ++ "' provided"]
          else [])
       (Dict.keys inputs) ) in
  errors.

Definition get_required_variables (self : t) : list string :=
  map fst (filter (fun '(_, spec) => VariableSpec.required spec) (variables self)).

Definition get_optional_variables (self : t) : list string :=
  map fst (filter (fun '(_, spec) => negb (VariableSpec.required spec))
             (variables self)).

(** The first two loops of [render]: the substitution context. *)
Definition render_context (self : t) (kwargs : Dict.t string value)
  : Dict.t string value :=
  (* Apply defaults for optional variables *)
  let context :=
    fold_left
      (fun context '(var_name, var_spec) =>
         match Dict.get var_name kwargs with
         | Some v => Dict.set var_name v context
         | None =>
             if negb (VariableSpec.required var_spec)
                && negb (is_none (VariableSpec.default var_spec))
             then Dict.set var_name (VariableSpec.default var_spec) context
             else context
         end)
      (variables self) Dict.empty in
  (* Add any extra kwargs (for flexibility) *)
  fold_left
    (fun context '(key, v) =>
       if negb (Dict.contains key context) then Dict.set key v context
       else context)
    kwargs context.

Section WithEngine.
Context {E : Engine}.

Definition _get_template_variables (self : t) : result (list string) :=
  a <- parse (template self) ;;
  Ok (find_undeclared_variables a).

Definition validate (self : t) : result (list string) :=
  let errors : list string := [] in
  (* Check template syntax *)
  errors <-
    match from_string (template self) with
    | Ok _ => Ok errors
    | Raise (TemplateSyntaxError e) =>
        Ok (app errors ["Template syntax error: " ++ e])
    | Raise e => Raise e
    end ;;
  (* Check that all template variables are defined *)
  let errors :=
    match _get_template_variables self with
    | Ok template_vars =>
        app errors
        (flat_map
           (fun var =>
              if negb (Dict.contains var (variables self))
              then ["Variable '" ++ var
                      ++ "' used in template but not defined in variables"]
              else [])
           template_vars)
    | Raise e =>
        app errors ["Error parsing template variables: " ++ str_exn e]
    end in
  (* Check version; [version] is an integer by its type *)
  let errors :=
    if version self <? 1
    then app errors ["Version must be a positive integer, got: "
                       ++ str_int (version self)]
    else errors in
  Ok errors.

Definition render (self : t) (kwargs : Dict.t string value) : result string :=
  let context := render_context self kwargs in
  (* Validate inputs *)
  let validation_errors := validate_inputs self context in
  match validation_errors with
  | _ :: _ =>
      Raise (ValueError ("Input validation failed: "
                           ++ join "; " validation_errors))
  | [] =>
      (* Render template *)
      match (tpl <- from_string (template self) ;; render_compiled tpl context) with
      | Raise (UndefinedError e) =>
          Raise (ValueError ("Template rendering failed: " ++ e))
      | r => r
      end
  end.
End WithEngine.

End PromptTemplate.

(* ------------------------------------------------------------------ *)
(** ** The prompts directory *)

Module Disk.

(** What opening and parsing a file gives: [open] raises ([e] is the text
    of the [OSError]), [yaml.safe_load] raises [YAMLError], or it returns
    a value.  Writing a document with [yaml.dump] and reading it back with
    [yaml.safe_load] is taken to return the document. *)
Inductive content : Type :=
| Unreadable (e : string)
| Malformed (e : string)
| Parsed (p : Raw.parsed).

(** A file below the prompts directory: the directories between the
    prompts directory and the file, and its name. *)
Record file : Type := {
  subdir : list string;
  filename : string;
  contents : content
}.

(** The files below the prompts directory in the order in which a scan of
    the directory meets them; [None] when the directory does not exist. *)
Definition t : Type := option (list file).

Definition ends_with (suffix s : string) : bool :=
  (String.length suffix <=? String.length s)%nat
  && String.eqb
       (substring (String.length s - String.length suffix)
          (String.length suffix) s)
       suffix.

(** [prompts_dir.glob("**/*" + suffix)] *)
Definition glob (suffix : string) (files : list file) : list file :=
  filter (fun f => ends_with suffix (filename f)) files.

(** [name.rfind(".")], counted from [i]. *)
Fixpoint rfind_dot (s : string) (i : nat) (last : option nat) : option nat :=
  match s with
  | EmptyString => last
  | String c s' =>
      rfind_dot s' (S i) (if Ascii.eqb c "."%char then Some i else last)
  end.

(** [PurePath.stem]: the name without its last suffix. *)
Definition stem (name : string) : string :=
  match rfind_dot name 0 None with
  | Some i =>
      if ((0 <? i) && (i <? String.length name - 1))%nat
      then substring 0 i name
      else name
  | None => name
  end.

(** [str(prompts_dir / ... / filename)] *)
Definition path (prompts_dir : string) (f : file) : string :=
  join "/" (prompts_dir :: subdir f ++ [filename f]).

(** [open(f)] followed by [yaml.safe_load] *)
Definition safe_load (f : file) : result Raw.parsed :=
  match contents f with
  | Unreadable e => Raise (OtherError e)
  | Malformed e => Raise (YAMLError e)
  | Parsed p => Ok p
  end.

(** [prompts_dir.mkdir(parents=True, exist_ok=True)] *)
Definition mkdir (d : t) : t :=
  match d with
  | None => Some []
  | Some files => Some files
  end.


(** [open(prompts_dir / name, "w")] and writing [c], for a [name] that
    [is_component]: an existing file is truncated and rewritten, a new
    one is added to the directory.  Other names are outside what this
    models; the theorems about what [create_prompt] writes assume
    [is_component] of the file name. *)
Fixpoint write_file (name : string) (c : content) (files : list file)
  : list file :=
  match files with
  | [] => [{| subdir := []; filename := name; contents := c |}]
  | f :: files' =>
      if match subdir f with [] => String.eqb (filename f) name | _ => false end
      then {| subdir := []; filename := name; contents := c |} :: files'
      else f :: write_file name c files'
  end.

Definition write (name : string) (c : content) (d : t) : t :=
  match d with
  | None => Some (write_file name c [])
  | Some files => Some (write_file name c files)
  end.

(** [(prompts_dir / name).exists()] *)
Definition exists_file (name : string) (d : t) : bool :=
  match d with
  | Some files =>
      existsb
        (fun f =>
           match subdir f with
           | [] => String.eqb (filename f) name
           | _ => false
           end)
        files
  | None => false
  end.

End Disk.

(* ------------------------------------------------------------------ *)
(** ** registry.py *)

Module PromptRegistry.

(** The index: name, then version. *)
Definition index : Type := Dict.t string (Dict.t Z PromptTemplate.t).

Record t : Type := {
  prompts_dir : string;
  _templates : index;
  _loaded : bool
}.

(** [PromptRegistry(prompts_dir)] *)
Definition __init__ (prompts_dir : string) : t :=
  {| prompts_dir := prompts_dir; _templates := Dict.empty; _loaded := false |}.

(** The registry object together with the directory it reads and writes. *)
Record world : Type := {
  disk : Disk.t;
  self : t
}.

Definition set_templates (ts : index) (w : world) : world :=
  {| disk := disk w;
     self := {| prompts_dir := prompts_dir (self w);
                _templates := ts;
                _loaded := _loaded (self w) |} |}.

Definition set_loaded (b : bool) (w : world) : world :=
  {| disk := disk w;
     self := {| prompts_dir := prompts_dir (self w);
                _templates := _templates (self w);
                _loaded := b |} |}.

Definition set_disk (d : Disk.t) (w : world) : world :=
  {| disk := d; self := self w |}.

Definition M : Type -> Type := state_exn world.

(** [d[k]] *)
Definition getitem {K V} `{Dict.Key K} (k : K) (d : Dict.t K V) : result V :=
  match Dict.get k d with
  | Some v => Ok v
  | None => Raise (KeyError "key")
  end.

(** [PromptTemplate.from_dict(data)] on whatever [safe_load] returned. *)
Definition from_parsed (data : Raw.parsed) : result PromptTemplate.t :=
  match data with
  | Raw.PNone => Raise (OtherError "argument of type 'NoneType' is not iterable")
  | Raw.PDict d => PromptTemplate.from_dict d
  | Raw.POther e => Raise (OtherError e)
  end.

Definition _load_file (f : Disk.file) : M unit :=
  filepath <- gets (fun w => Disk.path (prompts_dir (self w)) f) ;;
  try_except
    (data <- lift (Disk.safe_load f) ;;
     match data with
     | Raw.PNone => ret tt
     | _ =>
         template <- lift (from_parsed data) ;;
         (* Use filename as name if not specified *)
         let template :=
           if String.eqb (PromptTemplate.name template) "unnamed"
           then PromptTemplate.set_name template (Disk.stem (Disk.filename f))
           else template in
         (* Store by name and version *)
         ts <- gets (fun w => _templates (self w)) ;;
         (if negb (Dict.contains (PromptTemplate.name template) ts)
          then modify (set_templates
                         (Dict.set (PromptTemplate.name template) Dict.empty ts))
          else ret tt) ;;
         ts <- gets (fun w => _templates (self w)) ;;
         versions <- lift (getitem (PromptTemplate.name template) ts) ;;
         modify (set_templates
                   (Dict.set (PromptTemplate.name template)
                      (Dict.set (PromptTemplate.version template) template versions)
                      ts))
     end)
    (fun e =>
       match e with
       | YAMLError m =>
           Some (ValueError ("Error parsing YAML in " ++ filepath ++ ": " ++ m))
       | _ =>
           Some (ValueError ("Error loading template from " ++ filepath ++ ": "
                               ++ str_exn e))
       end).

Definition load : M unit :=
  modify (set_templates Dict.empty) ;;
  d <- gets disk ;;
  match d with
  | None => modify (set_loaded true)
  | Some files =>
      (* Load all YAML files in the prompts directory *)
      for_each (Disk.glob ".yaml" files) _load_file ;;
      for_each (Disk.glob ".yml" files) _load_file ;;
      modify (set_loaded true)
  end.

Definition reload : M unit :=
  modify (set_loaded false) ;;
  load.

Definition _ensure_loaded : M unit :=
  loaded <- gets (fun w => _loaded (self w)) ;;
  if negb loaded then load else ret tt.

Definition get (name : string) (version : option Z)
  : M (option PromptTemplate.t) :=
  _ensure_loaded ;;
  ts <- gets (fun w => _templates (self w)) ;;
  if negb (Dict.contains name ts) then ret None
  else
    versions <- lift (getitem name ts) ;;
    match version with
    | Some v => ret (Dict.get v versions)
    | None =>
        (* Return the latest version *)
        match Dict.keys versions with
        | k :: ks =>
            let latest_version := py_max k ks in
            template <- lift (getitem latest_version versions) ;;
            ret (Some template)
        | [] => ret None
        end
    end.

Definition list_versions (name : string) : M (list Z) :=
  _ensure_loaded ;;
  ts <- gets (fun w => _templates (self w)) ;;
  if negb (Dict.contains name ts) then ret []
  else
    versions <- lift (getitem name ts) ;;
    ret (sorted (Dict.keys versions)).

(** The file name has to be a single path component
    ([Disk.is_component]), so that the file lies directly in the prompts
    directory: what the code does with a name such as [a/b], [/tmp/x] or
    [../x] (it fails in [open] or writes elsewhere) is not modelled, and
    the theorems about what [create_prompt] writes assume
    [Disk.is_component] of the file name. *)
Definition create_prompt (name template description : string)
    (variables : option (Dict.t string Raw.var_mapping)) (version : Z)
  : M string :=
  (* Ensure prompts directory exists *)
  modify (fun w => set_disk (Disk.mkdir (disk w)) w) ;;
  (* Build the template data *)
  let data :=
    {| Raw.name := Some name;
       Raw.version := Some version;
       Raw.document_description := Some description;
       Raw.variables :=
         Some (Raw.VarsDict
                 (map (fun '(k, m) => (k, Raw.SpecDict m))
                    (match variables with Some vs => vs | None => [] end)));
       Raw.template := Some template |} in
  (* Determine filename *)
  let filename :=
    if version =? 1 then name ++ ".yaml"
    else name ++ "_v" ++ str_int version ++ ".yaml" in
  filepath <- gets (fun w => join "/" [prompts_dir (self w); filename]) ;;
  modify (fun w =>
            set_disk (Disk.write filename (Disk.Parsed (Raw.PDict data)) (disk w)) w) ;;
  (* Reload to include the new template *)
  reload ;;
  ret filepath.


Definition __contains__ (name : string) : M bool :=
  _ensure_loaded ;;
  gets (fun w => Dict.contains name (_templates (self w))).

Definition list_prompts : M (list string) :=
  _ensure_loaded ;;
  gets (fun w => sorted_str (Dict.keys (_templates (self w)))).


(** The document of the example template. *)
Definition example_data : Raw.document :=
  {| Raw.name := Some "example";
     Raw.version := Some 1;
     Raw.document_description := Some "An example prompt template";
     Raw.variables :=
       Some (Raw.VarsDict
         [("topic",
           Raw.SpecDict {| Raw.required := Some true;
                           Raw.default := None;
                           Raw.description := Some "The topic to explain" |});
          ("audience",
           Raw.SpecDict {| Raw.required := Some false;
                           Raw.default := Some (VStr "general audience");
                           Raw.description :=
                             Some "Target audience for the explanation" |})]);
     Raw.template :=
       Some (String.append "Explain {{ topic }} in simple terms for a {{ audience }}."
               (String (ascii_of_nat 10) EmptyString)) |}.

Definition init_prompts_dir : M string :=
  modify (fun w => set_disk (Disk.mkdir (disk w)) w) ;;
  (* Create an example template *)
  d <- gets disk ;;
  (if negb (Disk.exists_file "example.yaml" d)
   then modify (fun w =>
                  set_disk (Disk.write "example.yaml"
                              (Disk.Parsed (Raw.PDict example_data)) (disk w)) w)
   else ret tt) ;;
  gets (fun w => prompts_dir (self w)).


(** [kwargs] without the keyword [version]. *)
Definition without_version (kwargs : Dict.t string value) : Dict.t string value :=
  filter (fun '(k, _) => negb (String.eqb k "version")) kwargs.

(** How a call of [render] gives the version: not at all, or as an
    argument (which may be [None]). *)
Inductive version_arg : Type :=
| Omitted
| Passed (version : option Z).

Section WithEngine.
Context {E : Engine}.

(** [render(self, name, version=None, **kwargs)] is called with the
    variables as keywords, which share the call with the parameters.  A
    keyword named after a parameter that the call has filled already is
    refused with [TypeError] before the body runs: Python reports the
    first such keyword.  [self] and [name] are always filled, [version]
    when the call passes it. *)
Definition filled_parameters (version : version_arg) : list string :=
  match version with
  | Omitted => ["self"; "name"]
  | Passed _ => ["self"; "name"; "version"]
  end.

Definition refused_keyword (version : version_arg)
    (kwargs : Dict.t string value) : option string :=
  find (fun k => existsb (String.eqb k) (filled_parameters version))
    (Dict.keys kwargs).

(** [self.get(name, version)] for a [version] that came in as a keyword
    and so can be any value.  [True] and [False] are the dictionary keys
    [1] and [0]; no version equals a string, so that [get] ends in
    [versions.get(version)], which is [None], or before. *)
Definition get_keyword (name : string) (version : value)
  : M (option PromptTemplate.t) :=
  match version with
  | VNone => get name None
  | VInt v => get name (Some v)
  | VBool b => get name (Some (if b then 1 else 0))
  | VStr _ => _ensure_loaded ;; ret None
  end.

(** The body of [render], [found] being [self.get(name, version)]. *)
Definition render_found (name : string) (found : M (option PromptTemplate.t))
    (kwargs : Dict.t string value) : M string :=
  template <- found ;;
  match template with
  | None => raise (ValueError ("Template '" ++ name ++ "' not found"))
  | Some template => lift (PromptTemplate.render template kwargs)
  end.

(** [registry.render(name, **kwargs)] and
    [registry.render(name, version, **kwargs)].  When the call passes no
    version, a keyword [version] is the parameter and does not reach
    [kwargs]. *)
Definition render (name : string) (version : version_arg)
    (kwargs : Dict.t string value) : M string :=
  match refused_keyword version kwargs with
  | Some k =>
      raise (OtherError ("PromptRegistry.render() got multiple values for argument '"
                           ++ k ++ "'"))
  | None =>
      match version with
      | Passed version => render_found name (get name version) kwargs
      | Omitted =>
          match Dict.get "version" kwargs with
          | Some version =>
              render_found name (get_keyword name version)
                (without_version kwargs)
          | None => render_found name (get name None) kwargs
          end
      end
  end.

Definition validate_all : M (Dict.t string (list string)) :=
  _ensure_loaded ;;
  ts <- gets (fun w => _templates (self w)) ;;
  lift
    (fold_result
       (fun errors '(name, versions) =>
          fold_result
            (fun errors '(version, template) =>
               template_errors <- PromptTemplate.validate template ;;
               match template_errors with
               | _ :: _ =>
                   let key := name ++ ":v" ++ str_int version in
                   Ok (Dict.set key template_errors errors)
               | [] => Ok errors
               end)
            versions errors)
       ts Dict.empty).

End WithEngine.

End PromptRegistry.

(* ------------------------------------------------------------------ *)
(** ** cli.py

    The commands as functions of the prompts directory and their
    arguments.  What a command prints is kept as the list of the strings
    (with their markup) and panels it hands to the two consoles; tables
    and syntax highlighting, and with them the [list] and [show]
    commands, are left out. *)

Module Cli.

Inductive output : Type :=
| Print (s : string)
| PrintError (s : string)
| PrintPanel (body title : string).

(** How a command ends: it returns, it calls [sys.exit], or an exception
    leaves it. *)
Inductive status : Type :=
| Returned
| Exited (code : Z)
| Uncaught (e : exn).

Record run : Type := {
  outcome : status;
  printed : list output;
  disk_after : Disk.t
}.

Definition newline : string := String (ascii_of_nat 10) EmptyString.

(** [sep in s] and [s.split(sep, 1)] for a one-character separator:
    [None] when [sep] does not occur, else what stands before and after
    its first occurrence. *)
Fixpoint split_once (sep : ascii) (s : string) : option (string * string) :=
  match s with
  | EmptyString => None
  | String c s' =>
      if Ascii.eqb c sep then Some (EmptyString, s')
      else
        match split_once sep s' with
        | Some (before, rest) => Some (String c before, rest)
        | None => None
        end
  end.

(** [s.endswith(c)] and [s[:-1]]: the string without its last character
    when that character is [c]. *)
Fixpoint strip_last (c : ascii) (s : string) : option string :=
  match s with
  | EmptyString => None
  | String a EmptyString => if Ascii.eqb a c then Some EmptyString else None
  | String a s' =>
      match strip_last c s' with
      | Some p => Some (String a p)
      | None => None
      end
  end.

(** The loop of [render] over its [--var] options: the dictionary, or the
    first option without [=]. *)
Fixpoint parse_vars (var : list string) (variables : Dict.t string value)
  : string + Dict.t string value :=
  match var with
  | [] => inr variables
  | v :: var' =>
      match split_once "="%char v with
      | None => inl v
      | Some (key, value) => parse_vars var' (Dict.set key (VStr value) variables)
      end
  end.

(** One [--var] option of [new]: name, requiredness, description. *)
Definition parse_new_var (v : string) : string * bool * string :=
  let '(var_name, var_desc) :=
    match split_once ":"%char v with
    | Some (n, d) => (n, d)
    | None => (v, EmptyString)
    end in
  (* Check for required marker *)
  match strip_last "!"%char var_name with
  | Some n => (n, true, var_desc)
  | None =>
      match strip_last "?"%char var_name with
      | Some n => (n, false, var_desc)
      | None => (var_name, true, var_desc)
      end
  end.




Definition registry (prompts_dir : string) (d : Disk.t) : PromptRegistry.world :=
  {| PromptRegistry.disk := d;
     PromptRegistry.self := PromptRegistry.__init__ prompts_dir |}.

Definition exit_1 (out : list output) (w : PromptRegistry.world) : run :=
  {| outcome := Exited 1; printed := out; disk_after := PromptRegistry.disk w |}.

Definition uncaught (e : exn) (w : PromptRegistry.world) : run :=
  {| outcome := Uncaught e; printed := []; disk_after := PromptRegistry.disk w |}.

Definition init (prompts_dir : string) (d : Disk.t) : run :=
  match PromptRegistry.init_prompts_dir (registry prompts_dir d) with
  | (Ok path, w) =>
      {| outcome := Returned;
         printed :=
           [Print ("[green]Initialized prompts directory at:[/green] " ++ path);
            Print "[dim]Created example.yaml template[/dim]"];
         disk_after := PromptRegistry.disk w |}
  | (Raise e, w) => exit_1 [PrintError ("[red]Error:[/red] " ++ str_exn e)] w
  end.


Section WithEngine.
Context {E : Engine}.

(** [template.render] called with the dictionary as keyword arguments:
    the key [self] collides with the method's own parameter. *)
Definition call_render (template : PromptTemplate.t)
    (variables : Dict.t string value) : result string :=
  if Dict.contains "self" variables
  then Raise (OtherError
                "PromptTemplate.render() got multiple values for argument 'self'")
  else PromptTemplate.render template variables.

Definition render (prompts_dir : string) (d : Disk.t)
    (name : string) (version : option Z) (var : list string) : run :=
  match PromptRegistry.load (registry prompts_dir d) with
  | (Raise (ValueError m), w) =>
      exit_1 [PrintError ("[red]Error loading prompts:[/red] " ++ m)] w
  | (Raise e, w) => uncaught e w
  | (Ok _, w) =>
      match PromptRegistry.get name version w with
      | (Raise e, w) => uncaught e w
      | (Ok None, w) =>
          exit_1 [PrintError ("[red]Template '" ++ name ++ "' not found.[/red]")] w
      | (Ok (Some template), w) =>
          (* Parse variables *)
          match parse_vars var Dict.empty with
          | inl v =>
              exit_1 [PrintError ("[red]Invalid variable format '" ++ v
                                    ++ "'. Use key=value.[/red]")] w
          | inr variables =>
              (* Check for missing required variables *)
              let missing :=
                filter (fun v => negb (Dict.contains v variables))
                  (PromptTemplate.get_required_variables template) in
              match missing with
              | _ :: _ =>
                  exit_1
                    [PrintError ("[red]Missing required variables:[/red] "
                                   ++ join ", " missing);
                     Print (newline
                              ++ "[dim]Use --var key=value to provide variables[/dim]")]
                    w
              | [] =>
                  match call_render template variables with
                  | Ok rendered =>
                      {| outcome := Returned;
                         printed :=
                           [PrintPanel rendered
                              ("Rendered: " ++ name ++ " v"
                                 ++ str_int (PromptTemplate.version template))];
                         disk_after := PromptRegistry.disk w |}
                  | Raise (ValueError m) =>
                      exit_1 [PrintError ("[red]Error rendering template:[/red] "
                                            ++ m)] w
                  | Raise e => uncaught e w
                  end
              end
          end
      end
  end.

Definition validate (prompts_dir : string) (d : Disk.t) : run :=
  match PromptRegistry.load (registry prompts_dir d) with
  | (Raise (ValueError m), w) =>
      exit_1 [PrintError ("[red]Error loading prompts:[/red] " ++ m)] w
  | (Raise e, w) => uncaught e w
  | (Ok _, w) =>
      match PromptRegistry.list_prompts w with
      | (Raise e, w) => uncaught e w
      | (Ok [], w) =>
          {| outcome := Returned;
             printed := [Print "[yellow]No prompts found to validate.[/yellow]"];
             disk_after := PromptRegistry.disk w |}
      | (Ok prompts, w) =>
          match PromptRegistry.validate_all w with
          | (Raise e, w) => uncaught e w
          | (Ok [], w) =>
              {| outcome := Returned;
                 printed :=
                   [Print ("[green]All "
                             ++ str_int (Z.of_nat (List.length prompts))
                             ++ " prompt(s) validated successfully.[/green]")];
                 disk_after := PromptRegistry.disk w |}
          | (Ok errors, w) =>
              (* Show errors *)
              exit_1
                (Print "[red]Validation errors found:[/red]"
                 :: flat_map
                      (fun '(template_key, template_errors) =>
                         Print (newline ++ "[yellow]" ++ template_key
                                  ++ ":[/yellow]")
                         :: map (fun error => Print ("  [red]- " ++ error ++ "[/red]"))
                              template_errors)
                      errors)
                w
          end
      end
  end.

End WithEngine.

End Cli.

(* ------------------------------------------------------------------ *)
(** ** Variable interpolation

    The part of the template language the claims about concrete bodies
    need: literal text and [{{ name }}].  [lex] recognises exactly the
    sources made of these two; every other source (blocks, comments,
    filters, attribute access, literals, names the engine predefines) is
    outside the fragment and gets [None]. *)

Module Interpolation.

Inductive segment : Type :=
| Text (s : string)
| Var (name : string).

Definition is_space (c : ascii) : bool :=
  let n := nat_of_ascii c in
  ((n =? 32) || (n =? 9) || (n =? 10))%nat.

Definition is_name_start (c : ascii) : bool :=
  let n := nat_of_ascii c in
  (((65 <=? n) && (n <=? 90)) || ((97 <=? n) && (n <=? 122)) || (n =? 95))%nat.

Definition is_name_char (c : ascii) : bool :=
  let n := nat_of_ascii c in
  (is_name_start c || ((48 <=? n) && (n <=? 57)))%nat.

(** Names that are not looked up in the context as plain variables:
    constants, operators and the names a default environment predefines. *)
Definition reserved : list string :=
  ["true"; "false"; "none"; "True"; "False"; "None";
   "and"; "or"; "not"; "in"; "is"; "if"; "else";
   "range"; "dict"; "lipsum"; "cycler"; "joiner"; "namespace";
   "self"; "loop"; "super"; "caller"; "varargs"; "kwargs"].

Definition is_reserved (n : string) : bool :=
  existsb (String.eqb n) reserved.

Definition string_of_rev (acc : list ascii) : string :=
  string_of_list_ascii (rev acc).

Definition flush (acc : list ascii) (segs : list segment) : list segment :=
  match acc with
  | [] => segs
  | _ => Text (string_of_rev acc) :: segs
  end.

Inductive mode : Type :=
| InText (acc : list ascii)
| Opened
| InName (acc : list ascii)
| AfterName (acc : list ascii).

Definition close_name (acc : list ascii) (rest : option (list segment))
  : option (list segment) :=
  let n := string_of_rev acc in
  if is_reserved n then None
  else option_map (cons (Var n)) rest.

Fixpoint lex_from (s : string) (m : mode) : option (list segment) :=
  match m, s with
  | InText acc, EmptyString => Some (flush acc [])
  | InText acc, String c s1 =>
      if Ascii.eqb c "{"%char then
        match s1 with
        | String c2 s2 =>
            if Ascii.eqb c2 "{"%char
            then option_map (flush acc) (lex_from s2 Opened)
            else if Ascii.eqb c2 "%"%char || Ascii.eqb c2 "#"%char then None
            else lex_from s1 (InText (c :: acc))
        | EmptyString => lex_from s1 (InText (c :: acc))
        end
      else if (nat_of_ascii c =? 13)%nat then None
      else lex_from s1 (InText (c :: acc))
  | Opened, String c s1 =>
      if is_space c then lex_from s1 Opened
      else if is_name_start c then lex_from s1 (InName [c])
      else None
  | InName acc, String c s1 =>
      if is_name_char c then lex_from s1 (InName (c :: acc))
      else if is_space c then lex_from s1 (AfterName acc)
      else if Ascii.eqb c "}"%char then
        match s1 with
        | String c2 s2 =>
            if Ascii.eqb c2 "}"%char
            then close_name acc (lex_from s2 (InText []))
            else None
        | EmptyString => None
        end
      else None
  | AfterName acc, String c s1 =>
      if is_space c then lex_from s1 (AfterName acc)
      else if Ascii.eqb c "}"%char then
        match s1 with
        | String c2 s2 =>
            if Ascii.eqb c2 "}"%char
            then close_name acc (lex_from s2 (InText []))
            else None
        | EmptyString => None
        end
      else None
  | _, EmptyString => None
  end.

Definition lex (source : string) : option (list segment) :=
  lex_from source (InText []).

(** The names a source refers to, each once. *)
Definition referenced (segs : list segment) : list string :=
  nodup string_dec
    (flat_map (fun g => match g with Var n => [n] | Text _ => [] end) segs).

(** The output: text as it stands (no escaping, a last newline kept), a
    name replaced by [str] of its value, an undefined name by nothing. *)
Definition substitute (segs : list segment) (context : Dict.t string value)
  : string :=
  String.concat ""
    (map (fun g =>
            match g with
            | Text s => s
            | Var n =>
                match Dict.get n context with
                | Some v => py_str v
                | None => ""
                end
            end)
       segs).

End Interpolation.

(** An engine interpolates when, on the fragment, it compiles and parses
    every source, reports the referenced names as undeclared, and renders
    by substitution.  (The context is passed as keyword arguments, which
    rules out the key [self].) *)
Class Interpolating (E : Engine) : Prop := {
  interpolating_from_string :
    forall source segs,
      Interpolation.lex source = Some segs ->
      exists c,
        from_string source = Ok c /\
        forall context,
          Dict.contains "self" context = false ->
          render_compiled c context = Ok (Interpolation.substitute segs context);
  interpolating_parse :
    forall source segs,
      Interpolation.lex source = Some segs ->
      exists a,
        parse source = Ok a /\
        Permutation (find_undeclared_variables a) (Interpolation.referenced segs)
}.

(** The smallest such engine: it accepts the fragment and nothing else. *)
Definition interpolation_engine : Engine :=
  let accept source :=
    match Interpolation.lex source with
    | Some segs => Ok segs
    | None => Raise (TemplateSyntaxError "outside the interpolation fragment")
    end in
  {| compiled := list Interpolation.segment;
     ast := list Interpolation.segment;
     from_string := accept;
     parse := accept;
     find_undeclared_variables := Interpolation.referenced;
     render_compiled := fun c context => Ok (Interpolation.substitute c context) |}.

(* ------------------------------------------------------------------ *)
(** ** Vocabulary of the statements *)

(** The variables mapping [to_dict] writes. *)
Definition serialized_variables (self : PromptTemplate.t)
  : Dict.t string Raw.var_spec :=
  match Raw.variables (PromptTemplate.to_dict self) with
  | Some (Raw.VarsDict items) => items
  | _ => []
  end.

(** The per-variable mapping [to_dict] builds ([var_dict]). *)
Definition var_dict (var_spec : VariableSpec.t) : Raw.var_mapping :=
  {| Raw.required := Some (VariableSpec.required var_spec);
     Raw.description := Some (VariableSpec.description var_spec);
     Raw.default :=
       if negb (VariableSpec.required var_spec)
          && negb (is_none (VariableSpec.default var_spec))
       then Some (VariableSpec.default var_spec)
       else None |}.

(** [inputs] has a key for every required variable. *)
Definition supplies_required (self : PromptTemplate.t)
    (inputs : Dict.t string value) : Prop :=
  forall k s, In (k, s) (PromptTemplate.variables self) ->
              VariableSpec.required s = true ->
              Dict.contains k inputs = true.

(** Every key of [inputs] is a declared variable. *)
Definition only_declared (self : PromptTemplate.t)
    (inputs : Dict.t string value) : Prop :=
  forall k, In k (Dict.keys inputs) ->
            Dict.contains k (PromptTemplate.variables self) = true.

(** What [from_dict] makes of one entry of the variables mapping. *)
Definition parse_variable (var_name : string) (var_spec : Raw.var_spec)
  : VariableSpec.t :=
  match var_spec with
  | Raw.SpecDict m => VariableSpec.from_dict var_name m
  | Raw.SpecOther => VariableSpec.make var_name true
  end.

(** What a variable has become after [to_dict] and [from_dict]. *)
Definition reparsed (k : string) (s : VariableSpec.t) : VariableSpec.t :=
  VariableSpec.from_dict k (var_dict s).

(** The document [init_prompts_dir] writes as [example.yaml]. *)
Definition example_document : Raw.document :=
  {| Raw.name := Some "example";
     Raw.version := Some 1;
     Raw.document_description := Some "An example prompt template";
     Raw.variables :=
       Some (Raw.VarsDict
         [("topic",
           Raw.SpecDict {| Raw.required := Some true;
                           Raw.default := None;
                           Raw.description := Some "The topic to explain" |});
          ("audience",
           Raw.SpecDict {| Raw.required := Some false;
                           Raw.default := Some (VStr "general audience");
                           Raw.description :=
                             Some "Target audience for the explanation" |})]);
     Raw.template :=
       Some (String.append "Explain {{ topic }} in simple terms for a {{ audience }}."
               (String (ascii_of_nat 10) EmptyString)) |}.

(** The value [render] places in the context for a declared variable:
    the supplied one, else the default of an optional variable when it is
    not [None], else nothing. *)
Definition applied (kwargs : Dict.t string value)
    (var : string * VariableSpec.t) : option value :=
  match Dict.get (fst var) kwargs with
  | Some v => Some v
  | None =>
      if negb (VariableSpec.required (snd var))
         && negb (is_none (VariableSpec.default (snd var)))
      then Some (VariableSpec.default (snd var))
      else None
  end.

(** The [try] block of [render]: compile the body, render it on the
    context, and turn an [UndefinedError] into a [ValueError]. *)
Definition render_body {E : Engine} (self : PromptTemplate.t)
    (context : Dict.t string value) : result string :=
  match (tpl <- from_string (PromptTemplate.template self) ;;
         render_compiled tpl context) with
  | Raise (UndefinedError e) =>
      Raise (ValueError ("Template rendering failed: " ++ e))
  | r => r
  end.

(** The context in closed form: the declared variables that receive a
    value, in declaration order, then the undeclared inputs. *)
Definition defaults_applied (self : PromptTemplate.t)
    (kwargs : Dict.t string value) : Dict.t string value :=
  flat_map
    (fun var => match applied kwargs var with
                | Some v => [(fst var, v)]
                | None => []
                end)
    (PromptTemplate.variables self).

(** [example.yaml] as a template. *)
Definition example_template : PromptTemplate.t :=
  {| PromptTemplate.name := "example";
     PromptTemplate.template :=
       String.append "Explain {{ topic }} in simple terms for a {{ audience }}."
         (String (ascii_of_nat 10) EmptyString);
     PromptTemplate.version := 1;
     PromptTemplate.description := "An example prompt template";
     PromptTemplate.variables :=
       [("topic",
         {| VariableSpec.name := "topic"; VariableSpec.required := true;
            VariableSpec.default := VNone;
            VariableSpec.description := "The topic to explain" |});
        ("audience",
         {| VariableSpec.name := "audience"; VariableSpec.required := false;
            VariableSpec.default := VStr "general audience";
            VariableSpec.description := "Target audience for the explanation" |})] |}.

(** A template with one required variable, and inputs that supply it
    together with a key the template does not declare. *)
Definition greeting_template : PromptTemplate.t :=
  {| PromptTemplate.name := "greeting";
     PromptTemplate.template := "Hi {{ x }}";
     PromptTemplate.version := 1;
     PromptTemplate.description := "";
     PromptTemplate.variables := [("x", VariableSpec.make "x" true)] |}.

Definition inputs_with_extra : Dict.t string value :=
  [("x", VStr "yo"); ("extra", VInt 1)].

(** The messages of the three checks of [validate], each on its own. *)
Definition syntax_messages {E : Engine} (self : PromptTemplate.t) : list string :=
  match from_string (PromptTemplate.template self) with
  | Raise (TemplateSyntaxError e) => ["Template syntax error: " ++ e]
  | _ => []
  end.

Definition variable_messages {E : Engine} (self : PromptTemplate.t) : list string :=
  match PromptTemplate._get_template_variables self with
  | Ok template_vars =>
      flat_map
        (fun var =>
           if negb (Dict.contains var (PromptTemplate.variables self))
           then ["Variable '" ++ var
                   ++ "' used in template but not defined in variables"]
           else [])
        template_vars
  | Raise e => ["Error parsing template variables: " ++ str_exn e]
  end.

Definition version_messages (self : PromptTemplate.t) : list string :=
  if PromptTemplate.version self <? 1
  then ["Version must be a positive integer, got: "
          ++ str_int (PromptTemplate.version self)]
  else [].

(** [from_string] raises nothing but [TemplateSyntaxError] on this body. *)
Definition syntax_errors_only {E : Engine} (self : PromptTemplate.t) : Prop :=
  forall e, from_string (PromptTemplate.template self) = Raise e ->
            exists m, e = TemplateSyntaxError m.

(** A body the fragment rejects, with a version below 1. *)
Definition broken_template : PromptTemplate.t :=
  {| PromptTemplate.name := "broken";
     PromptTemplate.template := "{% if %}";
     PromptTemplate.version := 0;
     PromptTemplate.description := "";
     PromptTemplate.variables := [] |}.

(** *** The registry *)

(** The files [load] visits, in the order it visits them. *)
Definition scan (files : list Disk.file) : list Disk.file :=
  (Disk.glob ".yaml" files ++ Disk.glob ".yml" files)%list.

(** What [_load_file] gets out of a file before it touches the index:
    nothing for an empty document, else the template under the name it
    will be stored under, or the exception raised on the way. *)
Definition parsed_template (f : Disk.file) : result (option PromptTemplate.t) :=
  data <- Disk.safe_load f ;;
  match data with
  | Raw.PNone => Ok None
  | _ =>
      template <- PromptRegistry.from_parsed data ;;
      Ok (Some (if String.eqb (PromptTemplate.name template) "unnamed"
                then PromptTemplate.set_name template (Disk.stem (Disk.filename f))
                else template))
  end.

(** The document in [f] fails to parse. *)
Definition fails_to_parse (f : Disk.file) : Prop :=
  exists e, parsed_template f = Raise e.

(** The [ValueError] that [_load_file] makes of an exception raised on [f]. *)
Definition load_error (prompts_dir : string) (f : Disk.file) (e : exn) : exn :=
  match e with
  | YAMLError m =>
      ValueError ("Error parsing YAML in " ++ Disk.path prompts_dir f ++ ": " ++ m)
  | _ =>
      ValueError ("Error loading template from " ++ Disk.path prompts_dir f ++ ": "
                    ++ str_exn e)
  end.

(** [self._templates[name][version] = template], with the inner
    dictionary created when the name is new. *)
Definition store (template : PromptTemplate.t) (ts : PromptRegistry.index)
  : PromptRegistry.index :=
  Dict.set (PromptTemplate.name template)
    (Dict.set (PromptTemplate.version template) template
       (match Dict.get (PromptTemplate.name template) ts with
        | Some versions => versions
        | None => Dict.empty
        end))
    ts.

(** The index after the files of [fs] have gone through [_load_file] one
    after the other, up to the first that raises. *)
Fixpoint load_files (prompts_dir : string) (fs : list Disk.file)
    (ts : PromptRegistry.index) : result unit * PromptRegistry.index :=
  match fs with
  | [] => (Ok tt, ts)
  | f :: fs' =>
      match parsed_template f with
      | Ok None => load_files prompts_dir fs' ts
      | Ok (Some template) => load_files prompts_dir fs' (store template ts)
      | Raise e => (Raise (load_error prompts_dir f e), ts)
      end
  end.

(** The entry of the index at a name and a version. *)
Definition lookup (name : string) (version : Z) (ts : PromptRegistry.index)
  : option PromptTemplate.t :=
  match Dict.get name ts with
  | Some versions => Dict.get version versions
  | None => None
  end.

(** The content of the file [name] directly in the prompts directory. *)
Fixpoint read_file (name : string) (files : list Disk.file) : option Disk.content :=
  match files with
  | [] => None
  | f :: files' =>
      if match Disk.subdir f with [] => String.eqb (Disk.filename f) name | _ => false end
      then Some (Disk.contents f)
      else read_file name files'
  end.

Definition read (name : string) (d : Disk.t) : option Disk.content :=
  match d with
  | Some files => read_file name files
  | None => None
  end.

(** The file name and the document [create_prompt] writes. *)
Definition created_filename (name : string) (version : Z) : string :=
  if version =? 1 then name ++ ".yaml"
  else name ++ "_v" ++ str_int version ++ ".yaml".

Definition created_document (name template description : string)
    (variables : option (Dict.t string Raw.var_mapping)) (version : Z)
  : Raw.document :=
  {| Raw.name := Some name;
     Raw.version := Some version;
     Raw.document_description := Some description;
     Raw.variables :=
       Some (Raw.VarsDict
               (map (fun '(k, m) => (k, Raw.SpecDict m))
                  (match variables with Some vs => vs | None => [] end)));
     Raw.template := Some template |}.

(** The index invariant: both levels are dictionaries, no name has an
    empty set of versions, and an entry carries the name and the version
    it is stored under. *)
Definition index_ok (ts : PromptRegistry.index) : Prop :=
  Dict.wf ts /\
  forall n versions,
    In (n, versions) ts ->
    Dict.wf versions /\
    versions <> [] /\
    forall v t,
      In (v, t) versions ->
      PromptTemplate.name t = n /\ PromptTemplate.version t = v.

(** The calls that change a registry. *)
Inductive call : Type :=
| CallLoad
| CallReload
| CallCreate (name template description : string)
    (variables : option (Dict.t string Raw.var_mapping)) (version : Z).

Definition run_call (c : call) : PromptRegistry.M unit :=
  match c with
  | CallLoad => PromptRegistry.load
  | CallReload => PromptRegistry.reload
  | CallCreate name template description variables version =>
      PromptRegistry.create_prompt name template description variables version ;;
      ret tt
  end.

(** The worlds a registry can be in: it starts unloaded on any directory,
    every call of the sequence returns normally, and between calls the
    directory may change behind its back. *)
Inductive reachable : PromptRegistry.world -> Prop :=
| reachable_init prompts_dir d :
    reachable {| PromptRegistry.disk := d;
                 PromptRegistry.self := PromptRegistry.__init__ prompts_dir |}
| reachable_call w c w' :
    reachable w -> run_call c w = (Ok tt, w') -> reachable w'
| reachable_disk w d :
    reachable w -> reachable (PromptRegistry.set_disk d w).

(** *** Sample directories *)

Definition required_x : Dict.t string Raw.var_spec :=
  [("x", Raw.SpecDict {| Raw.required := Some true; Raw.default := None;
                         Raw.description := None |})].

(** [a.yaml]: no name, version 1. *)
Definition a_yaml : Disk.file :=
  {| Disk.subdir := []; Disk.filename := "a.yaml";
     Disk.contents :=
       Disk.Parsed (Raw.PDict
         {| Raw.name := None; Raw.version := Some 1;
            Raw.document_description := None;
            Raw.variables := Some (Raw.VarsDict required_x);
            Raw.template := Some "Hi {{ x }}" |}) |}.

(** [a_v2.yaml]: name [a], version 2. *)
Definition a_v2_yaml : Disk.file :=
  {| Disk.subdir := []; Disk.filename := "a_v2.yaml";
     Disk.contents :=
       Disk.Parsed (Raw.PDict
         {| Raw.name := Some "a"; Raw.version := Some 2;
            Raw.document_description := None;
            Raw.variables := Some (Raw.VarsDict required_x);
            Raw.template := Some "Bye {{ x }}" |}) |}.

(** [old.yaml]: a document that is later removed from the directory. *)
Definition old_yaml : Disk.file :=
  {| Disk.subdir := []; Disk.filename := "old.yaml";
     Disk.contents :=
       Disk.Parsed (Raw.PDict
         {| Raw.name := Some "old"; Raw.version := Some 1;
            Raw.document_description := None;
            Raw.variables := None;
            Raw.template := Some "Old" |}) |}.

(** [b.yml]: not YAML. *)
Definition b_yml : Disk.file :=
  {| Disk.subdir := []; Disk.filename := "b.yml";
     Disk.contents := Disk.Malformed "mapping values are not allowed here" |}.



Definition fresh (d : Disk.t) : PromptRegistry.world :=
  {| PromptRegistry.disk := d;
     PromptRegistry.self := PromptRegistry.__init__ "prompts" |}.

(** A registry that has loaded [old.yaml], after which the directory has
    come to hold [a.yaml] and the broken [b.yml] instead. *)
Definition stale_world : PromptRegistry.world :=
  PromptRegistry.set_disk (Some [a_yaml; b_yml])
    (snd (PromptRegistry.load (fresh (Some [old_yaml])))).

(** The directory of the scenario: [a.yaml] and [a_v2.yaml]. *)
Definition scenario_world : PromptRegistry.world :=
  fresh (Some [a_yaml; a_v2_yaml]).



(** [create("p", "Hello {{ n }}", variables={"n": {"required": True}})] on
    a registry whose directory does not exist yet, and the world it leaves. *)
Definition first_create : result string * PromptRegistry.world :=
  PromptRegistry.create_prompt "p" "Hello {{ n }}" ""
    (Some [("n", {| Raw.required := Some true; Raw.default := None;
                    Raw.description := None |})])
    1 (fresh None).


(** The files of a directory, none when it does not exist. *)
Definition files_of (d : Disk.t) : list Disk.file :=
  match d with Some files => files | None => [] end.

(** What [get] returns once the registry state is settled. *)
Definition get_result (name : string) (version : option Z) (ts : PromptRegistry.index)
  : result (option PromptTemplate.t) :=
  match Dict.get name ts with
  | None => Ok None
  | Some versions =>
      match version with
      | Some v => Ok (Dict.get v versions)
      | None =>
          match Dict.keys versions with
          | k :: ks =>
              match Dict.get (py_max k ks) versions with
              | Some template => Ok (Some template)
              | None => Raise (KeyError "key")
              end
          | [] => Ok None
          end
      end
  end.

(** A directory with versions 1, 5 and 2 of [x], loaded. *)
Definition x_file (filename : string) (version : Z) : Disk.file :=
  {| Disk.subdir := []; Disk.filename := filename;
     Disk.contents :=
       Disk.Parsed (Raw.PDict
         {| Raw.name := Some "x"; Raw.version := Some version;
            Raw.document_description := None;
            Raw.variables := None;
            Raw.template := Some ("version " ++ str_int version) |}) |}.

Definition versions_world : PromptRegistry.world :=
  snd (PromptRegistry.load
         (fresh (Some [x_file "x.yaml" 1; x_file "x_v5.yaml" 5;
                       x_file "x_v2.yaml" 2]))).

(** The name [_load_file] stores a parsed template under, and the
    template as stored. *)
Definition stored_name (f : Disk.file) (template : PromptTemplate.t) : string :=
  if String.eqb (PromptTemplate.name template) "unnamed"
  then Disk.stem (Disk.filename f)
  else PromptTemplate.name template.

Definition stored_template (f : Disk.file) (template : PromptTemplate.t)
  : PromptTemplate.t :=
  if String.eqb (PromptTemplate.name template) "unnamed"
  then PromptTemplate.set_name template (Disk.stem (Disk.filename f))
  else template.


(** *** Vocabulary of the further properties *)

(** A template as [from_dict] would build it: every variable is named
    after its key, and a required variable carries no default. *)
Definition normalized (self : PromptTemplate.t) : Prop :=
  Dict.wf (PromptTemplate.variables self) /\
  forall k s,
    In (k, s) (PromptTemplate.variables self) ->
    VariableSpec.name s = k /\
    (VariableSpec.required s = true -> VariableSpec.default s = VNone).

(** The template that the files of [fs], visited in this order, leave at
    a name and a version: the one of the last file that parses to them. *)
Fixpoint last_entry (name : string) (version : Z) (fs : list Disk.file)
  : option PromptTemplate.t :=
  match fs with
  | [] => None
  | f :: fs' =>
      match last_entry name version fs' with
      | Some template => Some template
      | None =>
          match parsed_template f with
          | Ok (Some template) =>
              if String.eqb (PromptTemplate.name template) name
                 && (PromptTemplate.version template =? version)
              then Some template
              else None
          | _ => None
          end
      end
  end.

(** Insertion sort for an order given as a boolean test. *)
Definition le_of {A : Type} (leb : A -> A -> bool) (a b : A) : Prop :=
  leb a b = true.

Fixpoint insert_by {A} (leb : A -> A -> bool) (x : A) (l : list A) : list A :=
  match l with
  | [] => [x]
  | y :: l' => if leb x y then x :: l else y :: insert_by leb x l'
  end.




(** The loops of [validate_all]: one template, one name. *)
Definition validate_all_entry {E : Engine} (name : string)
    (errors : Dict.t string (list string)) (item : Z * PromptTemplate.t)
  : result (Dict.t string (list string)) :=
  let '(version, template) := item in
  match PromptTemplate.validate template with
  | Ok [] => Ok errors
  | Ok template_errors =>
      Ok (Dict.set (name ++ ":v" ++ str_int version) template_errors errors)
  | Raise e => Raise e
  end.

Definition validate_all_step {E : Engine}
    (errors : Dict.t string (list string))
    (item : string * Dict.t Z PromptTemplate.t)
  : result (Dict.t string (list string)) :=
  let '(name, versions) := item in
  fold_result (validate_all_entry name) versions errors.

(** [template] is stored in the index under [name] and [version]. *)
Definition stored (ts : PromptRegistry.index) (name : string) (version : Z)
    (template : PromptTemplate.t) : Prop :=
  exists versions, In (name, versions) ts /\ In (version, template) versions.

(** A directory holding [example.yaml] and a template with version 0. *)
Definition zero_yaml : Disk.file :=
  {| Disk.subdir := []; Disk.filename := "zero.yaml";
     Disk.contents :=
       Disk.Parsed (Raw.PDict
         {| Raw.name := Some "zero"; Raw.version := Some 0;
            Raw.document_description := None;
            Raw.variables := None;
            Raw.template := Some "Nothing" |}) |}.

Definition example_yaml : Disk.file :=
  {| Disk.subdir := []; Disk.filename := "example.yaml";
     Disk.contents := Disk.Parsed (Raw.PDict example_document) |}.

Definition mixed_world : PromptRegistry.world :=
  snd (PromptRegistry.load (fresh (Some [example_yaml; zero_yaml; a_yaml]))).

(** What the loops add to the dictionary of errors. *)
Definition grows (P : string -> list string -> Prop) (clean : Prop)
    (errors errors' : Dict.t string (list string)) : Prop :=
  (forall key errs, In (key, errs) errors' -> In (key, errs) errors \/ P key errs) /\
  (errors <> [] -> errors' <> []) /\
  (clean -> errors' = errors) /\
  (~ clean -> errors' <> []).


(** [f] is the file [name] directly in the prompts directory. *)
Definition top_level (name : string) (f : Disk.file) : bool :=
  match Disk.subdir f with
  | [] => String.eqb (Disk.filename f) name
  | _ => false
  end.


(** Keywords that [PromptRegistry.render] can take as variables: none
    is named after one of its parameters. *)
Definition plain_keywords (kwargs : Dict.t string value) : Prop :=
  forall k, In k ["self"; "name"; "version"] -> Dict.contains k kwargs = false.

(** The character [c] occurs in [s]. *)
Definition occurs (c : ascii) (s : string) : Prop :=
  In c (list_ascii_of_string s).
Example lex_example_prompt :
  Interpolation.lex "Explain {{ topic }} in simple terms for a {{audience}}." =
  Some [Interpolation.Text "Explain "; Interpolation.Var "topic";
        Interpolation.Text " in simple terms for a ";
        Interpolation.Var "audience"; Interpolation.Text "."].
Proof. reflexivity. Qed.

Example lex_block_outside : Interpolation.lex "{% if x %}y{% endif %}" = None.
Proof. reflexivity. Qed.

Example lex_attribute_outside : Interpolation.lex "{{ x.y }}" = None.
Proof. reflexivity. Qed.

(* ------------------------------------------------------------------ *)
(** * Facts about dictionaries *)

Section DictFacts.
Context {K V : Type} `{Dict.Key K}.
Implicit Types (k : K) (v : V) (d : Dict.t K V).

Lemma eqb_refl k : Dict.eqb k k = true.
Proof. destruct (Dict.eqb_spec k k); congruence. Qed.

Lemma eqb_neq k k' : k <> k' -> Dict.eqb k k' = false.
Proof. destruct (Dict.eqb_spec k k'); congruence. Qed.

Lemma get_set_eq k v d : Dict.get k (Dict.set k v d) = Some v.
Proof.
  induction d as [|[k' v'] d IH]; simpl.
  - now rewrite eqb_refl.
  - destruct (Dict.eqb_spec k k') as [->|Hne]; simpl.
    + now rewrite eqb_refl.
    + now rewrite eqb_neq.
Qed.

Lemma get_set_neq k k' v d :
  k <> k' -> Dict.get k' (Dict.set k v d) = Dict.get k' d.
Proof.
  intros Hne. induction d as [|[k2 v2] d IH]; simpl.
  - rewrite eqb_neq; congruence.
  - destruct (Dict.eqb_spec k k2) as [->|Hne2]; simpl.
    + rewrite eqb_neq; congruence.
    + now rewrite IH.
Qed.

Lemma get_none_iff k d : Dict.get k d = None <-> ~ In k (Dict.keys d).
Proof.
  induction d as [|[k' v'] d IH]; simpl.
  - tauto.
  - destruct (Dict.eqb_spec k k') as [->|Hne].
    + split; [discriminate | intros Hn; exfalso; apply Hn; now left].
    + rewrite IH. split; [intros Hn [Heq|Hin]; congruence | tauto].
Qed.

Lemma contains_iff k d : Dict.contains k d = true <-> In k (Dict.keys d).
Proof.
  unfold Dict.contains. pose proof (get_none_iff k d) as Hn.
  destruct (Dict.get k d).
  - split; [intros _ | reflexivity].
    destruct (in_dec (fun x y => reflect_dec _ _ (Dict.eqb_spec x y)) k (Dict.keys d))
      as [Hin|Hnin]; [assumption|].
    apply Hn in Hnin. discriminate.
  - split; [discriminate|]. intros Hin. exfalso. now apply (proj1 Hn).
Qed.

Lemma contains_false_iff k d : Dict.contains k d = false <-> ~ In k (Dict.keys d).
Proof.
  rewrite <- contains_iff. destruct (Dict.contains k d); split; congruence.
Qed.

Lemma contains_get k d :
  Dict.contains k d = true <-> exists v, Dict.get k d = Some v.
Proof.
  unfold Dict.contains. destruct (Dict.get k d) as [v|].
  - split; [eauto | reflexivity].
  - split; [discriminate | intros [v Hv]; discriminate].
Qed.

Lemma get_in k v d : Dict.get k d = Some v -> In (k, v) d.
Proof.
  induction d as [|[k' v'] d IH]; simpl; [discriminate|].
  destruct (Dict.eqb_spec k k') as [->|Hne].
  - intros [= ->]. now left.
  - intros Hg. right. now apply IH.
Qed.

Lemma in_get k v d : Dict.wf d -> In (k, v) d -> Dict.get k d = Some v.
Proof.
  unfold Dict.wf. induction d as [|[k' v'] d IH]; simpl; [tauto|].
  intros Hnd [Heq|Hin]; inversion Hnd as [|? ? Hnotin Hnd']; subst.
  - inversion Heq; subst. now rewrite eqb_refl.
  - destruct (Dict.eqb_spec k k') as [->|Hne]; [|now apply IH].
    exfalso. apply Hnotin. change (In (fst (k', v)) (map fst d)). now apply in_map.
Qed.

Lemma set_absent k v d :
  ~ In k (Dict.keys d) -> Dict.set k v d = (d ++ [(k, v)])%list.
Proof.
  induction d as [|[k' v'] d IH]; simpl; [reflexivity|].
  intros Hn. rewrite eqb_neq by (intros ->; apply Hn; now left).
  rewrite IH; [reflexivity | tauto].
Qed.

Lemma keys_set k v d :
  Dict.keys (Dict.set k v d) =
  if Dict.contains k d then Dict.keys d else (Dict.keys d ++ [k])%list.
Proof.
  unfold Dict.contains.
  induction d as [|[k' v'] d IH]; simpl.
  - reflexivity.
  - destruct (Dict.eqb_spec k k') as [->|Hne]; simpl; [reflexivity|].
    unfold Dict.keys in *. simpl. rewrite IH. now destruct (Dict.get k d).
Qed.

Lemma set_wf k v d : Dict.wf d -> Dict.wf (Dict.set k v d).
Proof.
  unfold Dict.wf. intros Hnd. rewrite keys_set.
  destruct (Dict.contains k d) eqn:Hc; [assumption|].
  apply contains_false_iff in Hc.
  apply NoDup_app; [assumption | repeat constructor; simpl; tauto |].
  intros x Hx [<-|[]]. contradiction.
Qed.

Lemma in_set k v k' v' d :
  In (k', v') (Dict.set k v d) -> (k' = k /\ v' = v) \/ In (k', v') d.
Proof.
  induction d as [|[k2 v2] d IH]; simpl.
  - intros [[= <- <-]|[]]. now left.
  - destruct (Dict.eqb_spec k k2) as [->|Hne]; simpl.
    + intros [[= <- <-]|Hin]; [now left | right; now right].
    + intros [Heq|Hin]; [right; now left|].
      destruct (IH Hin) as [?|?]; [now left | right; now right].
Qed.

(** A loop that assigns one key per item builds the dictionary item by
    item when no key repeats. *)
Lemma fold_set_app {X} (g : K * X -> option V) (l : list (K * X)) d :
  NoDup (Dict.keys d ++ map fst l) ->
  fold_left
    (fun acc kx =>
       match g kx with Some v => Dict.set (fst kx) v acc | None => acc end)
    l d =
  (d ++ flat_map
          (fun kx => match g kx with Some v => [(fst kx, v)] | None => [] end)
          l)%list.
Proof.
  revert d. induction l as [|[k x] l IH]; intros d Hnd; simpl.
  - now rewrite app_nil_r.
  - assert (Hk : ~ In k (Dict.keys d)).
    { intros Hin. apply NoDup_remove_2 in Hnd. apply Hnd.
      apply in_or_app. now left. }
    assert (Hnd' : NoDup (Dict.keys d ++ map fst l)).
    { now apply NoDup_remove_1 in Hnd. }
    destruct (g (k, x)) as [v|] eqn:Hg.
    + rewrite IH.
      * rewrite set_absent by assumption. now rewrite <- app_assoc.
      * rewrite set_absent by assumption.
        unfold Dict.keys in *. rewrite map_app. simpl. rewrite <- app_assoc.
        exact Hnd.
    + now apply IH.
Qed.

End DictFacts.

Lemma fold_left_ext {A B} (f g : A -> B -> A) (l : list B) (a : A) :
  (forall a b, f a b = g a b) -> fold_left f l a = fold_left g l a.
Proof.
  intros Hfg. revert a. induction l as [|b l IH]; intros a; simpl.
  - reflexivity.
  - now rewrite Hfg, IH.
Qed.

Example stem_examples :
  Disk.stem "a.yaml" = "a" /\ Disk.stem "a_v2.yaml" = "a_v2" /\
  Disk.stem "notes.v2.yml" = "notes.v2" /\ Disk.stem ".yaml" = ".yaml".
Proof. repeat split. Qed.

Example glob_example :
  map Disk.filename (scan [b_yml; a_yaml; old_yaml]) = ["a.yaml"; "old.yaml"; "b.yml"].
Proof. reflexivity. Qed.

Example created_filename_examples :
  created_filename "p" 1 = "p.yaml" /\ created_filename "p" 3 = "p_v3.yaml".
Proof. split; reflexivity. Qed.

(* ------------------------------------------------------------------ *)
(** * Parsing and serializing a template *)

Section DictMaps.
Context {K X V : Type} `{Dict.Key K}.

Lemma fold_set_wf (f : K -> X -> V) (l : list (K * X)) (d : Dict.t K V) :
  Dict.wf d ->
  Dict.wf (fold_left (fun acc '(k, x) => Dict.set k (f k x) acc) l d).
Proof.
  revert d. induction l as [|[k x] l IH]; intros d Hd; simpl; [assumption|].
  apply IH. now apply set_wf.
Qed.

Lemma fold_set_map (f : K -> X -> V) (l : list (K * X)) :
  NoDup (map fst l) ->
  fold_left (fun acc '(k, x) => Dict.set k (f k x) acc) l Dict.empty =
  map (fun '(k, x) => (k, f k x)) l.
Proof.
  intros Hnd.
  etransitivity.
  { apply fold_left_ext with
      (g := fun acc kx =>
              match (fun kx => Some (f (fst kx) (snd kx))) kx with
              | Some v => Dict.set (fst kx) v acc
              | None => acc
              end).
    intros a [k x]; reflexivity. }
  etransitivity.
  { apply (fold_set_app (fun kx => Some (f (fst kx) (snd kx)))). exact Hnd. }
  simpl.
  induction l as [|[k x] l IH]; simpl; [reflexivity|].
  f_equal. apply IH. now inversion Hnd.
Qed.

Lemma fold_set_in (f : K -> X -> V) (l : list (K * X)) (d : Dict.t K V) k v :
  In (k, v) (fold_left (fun acc '(k, x) => Dict.set k (f k x) acc) l d) ->
  In (k, v) d \/ exists x, In (k, x) l /\ v = f k x.
Proof.
  revert d. induction l as [|[k' x'] l IH]; intros d; simpl; [tauto|].
  intros Hin. destruct (IH _ Hin) as [Hd|[x [Hx ->]]].
  - destruct (in_set _ _ _ _ _ Hd) as [[-> ->]|Hd']; [|now left].
    right. exists x'. split; [now left | reflexivity].
  - right. exists x. split; [now right | reflexivity].
Qed.

Lemma get_map_values (f : K -> X -> V) (l : list (K * X)) k :
  Dict.get k (map (fun '(k, x) => (k, f k x)) l) = option_map (f k) (Dict.get k l).
Proof.
  induction l as [|[k' x'] l IH]; simpl; [reflexivity|].
  destruct (Dict.eqb_spec k k') as [->|Hne]; [reflexivity | exact IH].
Qed.

Lemma keys_map_values (f : K -> X -> V) (l : list (K * X)) :
  Dict.keys (map (fun '(k, x) => (k, f k x)) l) = Dict.keys l.
Proof.
  unfold Dict.keys. rewrite map_map. apply map_ext. now intros [k x].
Qed.

End DictMaps.

Lemma from_dict_variables data self :
  PromptTemplate.from_dict data = Ok self ->
  exists items,
    (Raw.variables data = Some (Raw.VarsDict items) \/
     (Raw.variables data = None /\ items = [])) /\
    PromptTemplate.variables self =
    fold_left (fun acc '(k, x) => Dict.set k (parse_variable k x) acc)
      items Dict.empty.
Proof.
  unfold PromptTemplate.from_dict. simpl.
  destruct (Raw.variables data) as [[items|e]|] eqn:Hv; simpl; try discriminate.
  - intros [= <-]. exists items. split; [now left|]. simpl.
    apply fold_left_ext. intros a [k [m|]]; reflexivity.
  - intros [= <-]. exists []. split; [now right | reflexivity].
Qed.

Lemma from_dict_wf data self :
  PromptTemplate.from_dict data = Ok self ->
  Dict.wf (PromptTemplate.variables self).
Proof.
  intros Hp. destruct (from_dict_variables _ _ Hp) as [items [_ ->]].
  apply fold_set_wf. constructor.
Qed.

Lemma serialized_variables_fold self :
  serialized_variables self =
  fold_left (fun acc '(k, s) => Dict.set k (Raw.SpecDict (var_dict s)) acc)
    (PromptTemplate.variables self) Dict.empty.
Proof.
  unfold serialized_variables, PromptTemplate.to_dict. simpl.
  apply fold_left_ext. intros a [k s]. reflexivity.
Qed.

Lemma serialized_variables_wf self :
  Dict.wf (PromptTemplate.variables self) ->
  serialized_variables self =
  map (fun '(k, s) => (k, Raw.SpecDict (var_dict s))) (PromptTemplate.variables self).
Proof.
  intros Hwf. rewrite serialized_variables_fold.
  now apply (fold_set_map (fun _ s => Raw.SpecDict (var_dict s))).
Qed.

Lemma from_dict_to_dict self :
  Dict.wf (PromptTemplate.variables self) ->
  PromptTemplate.from_dict (PromptTemplate.to_dict self) =
  Ok {| PromptTemplate.name := PromptTemplate.name self;
        PromptTemplate.template := PromptTemplate.template self;
        PromptTemplate.version := PromptTemplate.version self;
        PromptTemplate.description := PromptTemplate.description self;
        PromptTemplate.variables :=
          map (fun '(k, s) => (k, reparsed k s)) (PromptTemplate.variables self) |}.
Proof.
  intros Hwf.
  pose proof (serialized_variables_wf self Hwf) as Hs.
  unfold serialized_variables in Hs.
  unfold PromptTemplate.from_dict.
  destruct (Raw.variables (PromptTemplate.to_dict self)) as [[items|e]|] eqn:Hv;
    try discriminate Hv.
  subst items. simpl. do 2 f_equal.
  rewrite (fold_left_ext _
             (fun acc '(k, x) => Dict.set k (parse_variable k x) acc))
    by (intros a [k [m|]]; reflexivity).
  rewrite fold_set_map.
  - rewrite map_map. apply map_ext. now intros [k s].
  - rewrite map_map. erewrite map_ext; [exact Hwf | now intros [k s]].
Qed.

Lemma reparsed_fields k s :
  VariableSpec.name (reparsed k s) = k /\
  VariableSpec.required (reparsed k s) = VariableSpec.required s /\
  VariableSpec.description (reparsed k s) = VariableSpec.description s /\
  VariableSpec.default (reparsed k s) =
    (if VariableSpec.required s then VNone else VariableSpec.default s).
Proof.
  unfold reparsed, var_dict, VariableSpec.from_dict. simpl.
  repeat split.
  destruct (VariableSpec.required s); simpl; [reflexivity|].
  now destruct (VariableSpec.default s).
Qed.

(** C4.  Round trip: a document that parses, once serialized and parsed
    again, gives a template with the same name, version, description and
    body, the same variables in the same order, and for each variable the
    same requiredness and description (its default survives only when it
    is optional).  And [to_dict] writes, for every variable, [required]
    and [description], and a [default] exactly when the variable is
    optional and its default is not [None]. *)
Theorem C4_roundtrip :
  (forall data self,
     PromptTemplate.from_dict data = Ok self ->
     exists self',
       PromptTemplate.from_dict (PromptTemplate.to_dict self) = Ok self' /\
       PromptTemplate.name self' = PromptTemplate.name self /\
       PromptTemplate.version self' = PromptTemplate.version self /\
       PromptTemplate.description self' = PromptTemplate.description self /\
       PromptTemplate.template self' = PromptTemplate.template self /\
       Dict.keys (PromptTemplate.variables self') =
         Dict.keys (PromptTemplate.variables self) /\
       forall k s,
         Dict.get k (PromptTemplate.variables self) = Some s ->
         exists s',
           Dict.get k (PromptTemplate.variables self') = Some s' /\
           VariableSpec.required s' = VariableSpec.required s /\
           VariableSpec.description s' = VariableSpec.description s /\
           VariableSpec.default s' =
             (if VariableSpec.required s then VNone else VariableSpec.default s))
  /\
  (forall self k spec,
     In (k, spec) (serialized_variables self) ->
     exists s m,
       In (k, s) (PromptTemplate.variables self) /\
       spec = Raw.SpecDict m /\
       Raw.required m = Some (VariableSpec.required s) /\
       Raw.description m = Some (VariableSpec.description s) /\
       (VariableSpec.required s = true -> Raw.default m = None) /\
       (forall d, Raw.default m = Some d <->
                  VariableSpec.required s = false /\
                  VariableSpec.default s = d /\ d <> VNone)).
Proof.
  split.
  - intros data self Hparse.
    pose proof (from_dict_wf _ _ Hparse) as Hwf.
    eexists. split; [apply (from_dict_to_dict self Hwf)|]. simpl.
    repeat split; try reflexivity.
    + apply (keys_map_values reparsed).
    + intros k s Hget.
      exists (reparsed k s). rewrite (get_map_values reparsed), Hget.
      split; [reflexivity|]. apply (proj2 (reparsed_fields k s)).
  - intros self k spec Hin.
    rewrite serialized_variables_fold in Hin.
    apply (fold_set_in (fun _ s => Raw.SpecDict (var_dict s))) in Hin.
    destruct Hin as [[]|[s [Hs ->]]].
    exists s, (var_dict s). repeat split; try assumption.
    + unfold var_dict; simpl. intros ->. reflexivity.
    + unfold var_dict in H; simpl in H.
      destruct (VariableSpec.required s); simpl in H; [discriminate | reflexivity].
    + unfold var_dict in H; simpl in H.
      destruct (VariableSpec.required s); simpl in H; [discriminate|].
      destruct (VariableSpec.default s); simpl in H; congruence.
    + unfold var_dict in H; simpl in H.
      destruct (VariableSpec.required s); simpl in H; [discriminate|].
      destruct (VariableSpec.default s); simpl in H; congruence.
    + intros (Hr & Hd & Hn). unfold var_dict; simpl. rewrite Hr, Hd. simpl.
      destruct d; simpl; congruence.
Qed.

(** The example document of [init_prompts_dir]. *)
Lemma C4_roundtrip_witness :
  let data := example_document in
  exists self,
    PromptTemplate.from_dict data = Ok self /\
    exists self',
      PromptTemplate.from_dict (PromptTemplate.to_dict self) = Ok self' /\
      PromptTemplate.name self' = PromptTemplate.name self.
Proof.
  simpl.
  destruct (PromptTemplate.from_dict example_document) as [self|e] eqn:Hp;
    [|discriminate Hp].
  exists self. split; [reflexivity|].
  destruct (proj1 C4_roundtrip example_document self Hp) as [self' [H1 [H2 _]]].
  exists self'. split; assumption.
Defined.

(* ------------------------------------------------------------------ *)
(** * The substitution context of [render] *)

Section MoreDictFacts.
Context {K V : Type} `{Dict.Key K}.

Lemma get_app k (d1 d2 : Dict.t K V) :
  Dict.get k (d1 ++ d2)%list =
  match Dict.get k d1 with Some v => Some v | None => Dict.get k d2 end.
Proof.
  induction d1 as [|[k' v'] d1 IH]; simpl; [reflexivity|].
  now destruct (Dict.eqb k k').
Qed.

Lemma contains_app k (d1 d2 : Dict.t K V) :
  Dict.contains k (d1 ++ d2)%list = Dict.contains k d1 || Dict.contains k d2.
Proof.
  unfold Dict.contains. rewrite get_app. now destruct (Dict.get k d1).
Qed.

Lemma get_filter_keys (p : K -> bool) k (d : Dict.t K V) :
  Dict.get k (filter (fun kv => p (fst kv)) d) =
  if p k then Dict.get k d else None.
Proof.
  induction d as [|[k' v'] d IH]; simpl.
  - now destruct (p k).
  - destruct (p k') eqn:Hp'; simpl.
    + destruct (Dict.eqb_spec k k') as [->|Hne]; [now rewrite Hp' | exact IH].
    + destruct (Dict.eqb_spec k k') as [->|Hne]; [now rewrite IH, Hp' | exact IH].
Qed.

(** The second loop of [render]: the entries whose key is not yet in the
    context are appended, in the order of [kwargs]. *)
Lemma fold_extras (l : list (K * V)) (d : Dict.t K V) :
  NoDup (map fst l) ->
  fold_left
    (fun context '(key, v) =>
       if negb (Dict.contains key context) then Dict.set key v context
       else context)
    l d =
  (d ++ filter (fun kv => negb (Dict.contains (fst kv) d)) l)%list.
Proof.
  revert d. induction l as [|[k v] l IH]; intros d Hnd; simpl.
  - now rewrite app_nil_r.
  - inversion Hnd as [|? ? Hnotin Hnd']; subst.
    destruct (Dict.contains k d) eqn:Hc; simpl.
    + now apply IH.
    + rewrite IH by assumption.
      apply contains_false_iff in Hc. rewrite set_absent by assumption.
      rewrite <- app_assoc. simpl. do 2 f_equal.
      apply filter_ext_in. intros [k' v'] Hin. simpl.
      rewrite contains_app. unfold Dict.contains at 2. simpl.
      rewrite eqb_neq; [now rewrite orb_false_r|].
      intros ->. apply Hnotin.
      change (In (fst (k, v')) (map fst l)). now apply in_map.
Qed.

End MoreDictFacts.

Lemma flat_map_ext_in {A B} (f g : A -> list B) (l : list A) :
  (forall a, In a l -> f a = g a) -> flat_map f l = flat_map g l.
Proof.
  induction l as [|a l IH]; intros Hfg; simpl; [reflexivity|].
  rewrite Hfg by now left. f_equal. apply IH. intros; apply Hfg; now right.
Qed.

Lemma flat_map_nil {A B} (f : A -> list B) (l : list A) :
  (forall a, In a l -> f a = []) -> flat_map f l = [].
Proof.
  induction l as [|a l IH]; intros Hf; simpl; [reflexivity|].
  rewrite Hf by now left. apply IH. intros; apply Hf; now right.
Qed.

Lemma flat_map_map {A B C} (f : B -> list C) (g : A -> B) (l : list A) :
  flat_map f (map g l) = flat_map (fun x => f (g x)) l.
Proof.
  induction l as [|a l IH]; simpl; [reflexivity | now rewrite IH].
Qed.

Lemma flat_map_filter {A B} (p : A -> bool) (f : A -> list B) (l : list A) :
  (forall a, In a l -> p a = false -> f a = []) ->
  flat_map f (filter p l) = flat_map f l.
Proof.
  induction l as [|a l IH]; intros Hf; simpl; [reflexivity|].
  destruct (p a) eqn:Hp; simpl.
  - f_equal. apply IH. intros; apply Hf; [now right | assumption].
  - rewrite Hf by (try assumption; now left). simpl.
    apply IH. intros; apply Hf; [now right | assumption].
Qed.

Lemma get_defaults_applied_list kwargs vars k :
  NoDup (map fst vars) ->
  Dict.get k
    (flat_map (fun var => match applied kwargs var with
                          | Some v => [(fst var, v)]
                          | None => []
                          end) vars) =
  match Dict.get k vars with
  | Some s => applied kwargs (k, s)
  | None => None
  end.
Proof.
  induction vars as [|[k0 s0] vars IH]; intros Hnd; simpl; [reflexivity|].
  inversion Hnd as [|? ? Hnotin Hnd']; subst.
  rewrite get_app, (IH Hnd').
  destruct (String.eqb_spec k k0) as [->|Hne].
  - destruct (applied kwargs (k0, s0)) as [v|] eqn:Ha; simpl.
    + now rewrite String.eqb_refl.
    + apply (get_none_iff k0 vars) in Hnotin. now rewrite Hnotin.
  - destruct (applied kwargs (k0, s0)) as [v|]; simpl; [|reflexivity].
    apply String.eqb_neq in Hne. now rewrite Hne.
Qed.

Lemma get_defaults_applied self kwargs k :
  Dict.wf (PromptTemplate.variables self) ->
  Dict.get k (defaults_applied self kwargs) =
  match Dict.get k (PromptTemplate.variables self) with
  | Some s => applied kwargs (k, s)
  | None => None
  end.
Proof. apply get_defaults_applied_list. Qed.

Lemma render_context_eq self kwargs :
  Dict.wf (PromptTemplate.variables self) ->
  Dict.wf kwargs ->
  PromptTemplate.render_context self kwargs =
  (defaults_applied self kwargs
   ++ filter (fun kv => negb (Dict.contains (fst kv) (PromptTemplate.variables self)))
        kwargs)%list.
Proof.
  intros Hv Hk. unfold PromptTemplate.render_context.
  assert (H1 :
    fold_left
      (fun context '(var_name, var_spec) =>
         match Dict.get var_name kwargs with
         | Some v => Dict.set var_name v context
         | None =>
             if negb (VariableSpec.required var_spec)
                && negb (is_none (VariableSpec.default var_spec))
             then Dict.set var_name (VariableSpec.default var_spec) context
             else context
         end)
      (PromptTemplate.variables self) Dict.empty
    = defaults_applied self kwargs).
  { etransitivity.
    { apply fold_left_ext with
        (g := fun acc var =>
                match applied kwargs var with
                | Some v => Dict.set (fst var) v acc
                | None => acc
                end).
      intros a [k s]. unfold applied. simpl.
      destruct (Dict.get k kwargs); [reflexivity|].
      now destruct (negb (VariableSpec.required s)
                    && negb (is_none (VariableSpec.default s))). }
    apply (fold_set_app (applied kwargs)). exact Hv. }
  rewrite H1. rewrite fold_extras by exact Hk. f_equal.
  apply filter_ext_in. intros [k v] Hin. simpl. f_equal.
  unfold Dict.contains. rewrite get_defaults_applied by exact Hv.
  destruct (Dict.get k (PromptTemplate.variables self)) as [s|]; [|reflexivity].
  unfold applied. simpl. now rewrite (in_get _ _ _ Hk Hin).
Qed.

(** What the context holds under each key. *)
Lemma get_render_context self kwargs k :
  Dict.wf (PromptTemplate.variables self) ->
  Dict.wf kwargs ->
  Dict.get k (PromptTemplate.render_context self kwargs) =
  match Dict.get k (PromptTemplate.variables self) with
  | Some s => applied kwargs (k, s)
  | None => Dict.get k kwargs
  end.
Proof.
  intros Hv Hk. rewrite render_context_eq by assumption.
  rewrite get_app, get_defaults_applied by assumption.
  rewrite (get_filter_keys
             (fun k => negb (Dict.contains k (PromptTemplate.variables self)))).
  unfold Dict.contains.
  destruct (Dict.get k (PromptTemplate.variables self)) as [s|]; simpl.
  - now destruct (applied kwargs (k, s)).
  - reflexivity.
Qed.

Lemma contains_render_context_required self kwargs k s :
  Dict.wf (PromptTemplate.variables self) ->
  Dict.wf kwargs ->
  In (k, s) (PromptTemplate.variables self) ->
  VariableSpec.required s = true ->
  Dict.contains k (PromptTemplate.render_context self kwargs) =
  Dict.contains k kwargs.
Proof.
  intros Hv Hk Hin Hr. unfold Dict.contains.
  rewrite get_render_context by assumption.
  rewrite (in_get _ _ _ Hv Hin). unfold applied. simpl. rewrite Hr. simpl.
  now destruct (Dict.get k kwargs).
Qed.

(** Validating the merged context reports what validating the inputs
    themselves reports. *)
Lemma validate_inputs_render_context self kwargs :
  Dict.wf (PromptTemplate.variables self) ->
  Dict.wf kwargs ->
  PromptTemplate.validate_inputs self (PromptTemplate.render_context self kwargs) =
  PromptTemplate.validate_inputs self kwargs.
Proof.
  intros Hv Hk. unfold PromptTemplate.validate_inputs. simpl. f_equal.
  - apply flat_map_ext_in. intros [k s] Hin.
    destruct (VariableSpec.required s) eqn:Hr; simpl; [|reflexivity].
    now rewrite (contains_render_context_required self kwargs k s).
  - rewrite render_context_eq by assumption.
    unfold Dict.keys. rewrite map_app, flat_map_app.
    rewrite flat_map_nil.
    + simpl.
      set (f := fun var_name : string =>
                  if negb (Dict.contains var_name (PromptTemplate.variables self))
                  then ["Unknown variable '" ++ var_name ++ "' provided"]
                  else []).
      rewrite !flat_map_map.
      apply (flat_map_filter
               (fun kv : string * value =>
                  negb (Dict.contains (fst kv) (PromptTemplate.variables self)))
               (fun kv => f (fst kv)) kwargs).
      intros [k v] _ Hp. unfold f. simpl in *. now rewrite Hp.
    + intros k Hin. apply in_map_iff in Hin. destruct Hin as [[k' v] [<- Hin]].
      unfold defaults_applied in Hin. apply in_flat_map in Hin.
      destruct Hin as [[k0 s0] [Hin0 Hin1]].
      destruct (applied kwargs (k0, s0)); [|contradiction].
      destruct Hin1 as [[= <- <-]|[]]. simpl.
      assert (Hc : Dict.contains k0 (PromptTemplate.variables self) = true).
      { apply contains_iff. change (In (fst (k0, s0)) (map fst (PromptTemplate.variables self))).
        now apply in_map. }
      now rewrite Hc.
Qed.

(* ------------------------------------------------------------------ *)
(** * Rendering a template *)

Lemma unknown_reported self inputs k :
  In k (Dict.keys inputs) ->
  Dict.contains k (PromptTemplate.variables self) = false ->
  In ("Unknown variable '" ++ k ++ "' provided")
     (PromptTemplate.validate_inputs self inputs).
Proof.
  intros Hin Hc. unfold PromptTemplate.validate_inputs. simpl.
  apply in_or_app. right. apply in_flat_map. exists k. split; [assumption|].
  rewrite Hc. simpl. now left.
Qed.

Lemma missing_reported self inputs k s :
  In (k, s) (PromptTemplate.variables self) ->
  VariableSpec.required s = true ->
  Dict.contains k inputs = false ->
  In ("Required variable '" ++ k ++ "' is missing")
     (PromptTemplate.validate_inputs self inputs).
Proof.
  intros Hin Hr Hc. unfold PromptTemplate.validate_inputs. simpl.
  apply in_or_app. left. apply in_flat_map. exists (k, s). split; [assumption|].
  rewrite Hr, Hc. simpl. now left.
Qed.

Lemma validate_inputs_ok self inputs :
  supplies_required self inputs ->
  only_declared self inputs ->
  PromptTemplate.validate_inputs self inputs = [].
Proof.
  intros Hs Ho. unfold PromptTemplate.validate_inputs. simpl.
  rewrite !flat_map_nil; [reflexivity | |].
  - intros k Hin. now rewrite (Ho k Hin).
  - intros [k s] Hin. destruct (VariableSpec.required s) eqn:Hr; [|reflexivity].
    now rewrite (Hs k s Hin Hr).
Qed.

Lemma supplied_in_context self inputs k v :
  Dict.wf (PromptTemplate.variables self) ->
  Dict.wf inputs ->
  Dict.get k inputs = Some v ->
  Dict.get k (PromptTemplate.render_context self inputs) = Some v.
Proof.
  intros Hv Hk Hget. rewrite get_render_context by assumption.
  destruct (Dict.get k (PromptTemplate.variables self)); [|assumption].
  unfold applied. simpl. now rewrite Hget.
Qed.

Section Render.
Context {E : Engine}.

(** [render] is the validation of the inputs followed by the engine. *)
Lemma render_eq self inputs :
  Dict.wf (PromptTemplate.variables self) ->
  Dict.wf inputs ->
  PromptTemplate.render self inputs =
  match PromptTemplate.validate_inputs self inputs with
  | [] => render_body self (PromptTemplate.render_context self inputs)
  | errors =>
      Raise (ValueError ("Input validation failed: " ++ join "; " errors))
  end.
Proof.
  intros Hv Hk. unfold PromptTemplate.render.
  rewrite validate_inputs_render_context by assumption.
  now destruct (PromptTemplate.validate_inputs self inputs).
Qed.

Lemma render_invalid self inputs msg :
  Dict.wf (PromptTemplate.variables self) ->
  Dict.wf inputs ->
  In msg (PromptTemplate.validate_inputs self inputs) ->
  PromptTemplate.render self inputs =
  Raise (ValueError ("Input validation failed: "
                       ++ join "; " (PromptTemplate.validate_inputs self inputs))).
Proof.
  intros Hv Hk Hin. rewrite render_eq by assumption.
  destruct (PromptTemplate.validate_inputs self inputs); [contradiction | reflexivity].
Qed.

(** Whatever the template and the inputs: entries of [inputs] under
    undeclared keys do reach the substitution context, the context is
    then validated, which reports what validating [inputs] itself
    reports, and so every undeclared key makes [render] raise. *)
Lemma render_rejects_undeclared self inputs :
  Dict.wf (PromptTemplate.variables self) ->
  Dict.wf inputs ->
  (forall k v,
     Dict.get k inputs = Some v ->
     Dict.get k (PromptTemplate.render_context self inputs) = Some v) /\
  PromptTemplate.validate_inputs self (PromptTemplate.render_context self inputs) =
    PromptTemplate.validate_inputs self inputs /\
  (forall k,
     In k (Dict.keys inputs) ->
     Dict.contains k (PromptTemplate.variables self) = false ->
     In ("Unknown variable '" ++ k ++ "' provided")
        (PromptTemplate.validate_inputs self inputs) /\
     PromptTemplate.render self inputs =
     Raise (ValueError
              ("Input validation failed: "
                 ++ join "; " (PromptTemplate.validate_inputs self inputs)))).
Proof.
  intros Hv Hk. split; [|split].
  - intros k v Hget. now apply supplied_in_context.
  - now apply validate_inputs_render_context.
  - intros k Hin Hc.
    pose proof (unknown_reported self inputs k Hin Hc) as Hmsg.
    split; [assumption|]. now apply render_invalid with (1 := Hv) (2 := Hk) (3 := Hmsg).
Qed.

End Render.

Lemma greeting_template_wf : Dict.wf (PromptTemplate.variables greeting_template).
Proof. repeat constructor. simpl. tauto. Qed.

Lemma inputs_with_extra_wf : Dict.wf inputs_with_extra.
Proof.
  repeat constructor; simpl; try tauto.
  intros [H|[]]. discriminate H.
Qed.

(** C1 (where the code departs from it).  With the required [x] supplied
    and the undeclared key [extra] beside it, the loop of [render] that
    adds the extra keywords does put [extra] into the substitution
    context, and the validation that follows, run on that context, then
    makes [render] raise: the key does not pass through, whatever the
    engine. *)
Theorem C1_extra_key_rejected :
  supplies_required greeting_template inputs_with_extra /\
  Dict.get "extra" (PromptTemplate.render_context greeting_template inputs_with_extra)
    = Some (VInt 1) /\
  PromptTemplate.validate_inputs greeting_template
    (PromptTemplate.render_context greeting_template inputs_with_extra)
    = ["Unknown variable 'extra' provided"] /\
  forall E : Engine,
    @PromptTemplate.render E greeting_template inputs_with_extra =
    Raise (ValueError "Input validation failed: Unknown variable 'extra' provided").
Proof.
  split; [|split; [|split]].
  - intros k s [[= <- <-]|[]] _. reflexivity.
  - reflexivity.
  - reflexivity.
  - intros E. reflexivity.
Qed.

Section RenderContract.
Context {E : Engine}.

Lemma render_valid self inputs :
  Dict.wf (PromptTemplate.variables self) ->
  Dict.wf inputs ->
  supplies_required self inputs ->
  only_declared self inputs ->
  PromptTemplate.render self inputs =
  render_body self (PromptTemplate.render_context self inputs).
Proof.
  intros Hv Hk Hs Ho. rewrite render_eq by assumption.
  now rewrite validate_inputs_ok.
Qed.

Lemma render_context_without_self self inputs :
  Dict.wf (PromptTemplate.variables self) ->
  Dict.wf inputs ->
  only_declared self inputs ->
  Dict.contains "self" (PromptTemplate.variables self) = false ->
  Dict.contains "self" (PromptTemplate.render_context self inputs) = false.
Proof.
  intros Hv Hk Ho Hself.
  destruct (Dict.contains "self" (PromptTemplate.render_context self inputs))
    eqn:Hc; [|reflexivity].
  apply contains_get in Hc. destruct Hc as [v Hg].
  rewrite get_render_context in Hg by assumption.
  destruct (Dict.get "self" (PromptTemplate.variables self)) eqn:Hgv.
  - unfold Dict.contains in Hself. rewrite Hgv in Hself. discriminate.
  - assert (Hin : In "self" (Dict.keys inputs)).
    { apply contains_iff, contains_get. eauto. }
    apply Ho in Hin. congruence.
Qed.

(** On the interpolation fragment the rendered text is the substitution
    of the context into the body. *)
Lemma render_interpolates `{!Interpolating E} self inputs segs :
  Dict.wf (PromptTemplate.variables self) ->
  Dict.wf inputs ->
  supplies_required self inputs ->
  only_declared self inputs ->
  Dict.contains "self" (PromptTemplate.variables self) = false ->
  Interpolation.lex (PromptTemplate.template self) = Some segs ->
  PromptTemplate.render self inputs =
  Ok (Interpolation.substitute segs (PromptTemplate.render_context self inputs)).
Proof.
  intros Hv Hk Hs Ho Hself Hlex. rewrite render_valid by assumption.
  unfold render_body.
  destruct (interpolating_from_string _ _ Hlex) as [c [Hc Hr]].
  rewrite Hc. simpl. rewrite Hr; [reflexivity|].
  now apply render_context_without_self.
Qed.

(** C7.  The context [render] builds holds every supplied value under its
    name.  With the variables of the template as inputs, all required ones
    among them, [render] hands the body to the engine with that context,
    and on the interpolation fragment the output is the body with each
    name replaced by its value in the context.  An omitted optional
    variable whose default is not [None] is in the context with that
    default.  An omitted required variable is not in the context, whatever
    its default, and makes [render] raise one [ValueError] whose message
    joins the messages of validation, among them one for every missing
    required variable. *)
Theorem C7_render_contract self inputs :
  Dict.wf (PromptTemplate.variables self) ->
  Dict.wf inputs ->
  let context := PromptTemplate.render_context self inputs in
  (* the supplied values *)
  (forall k v, Dict.get k inputs = Some v -> Dict.get k context = Some v) /\
  (* all required variables supplied *)
  (supplies_required self inputs ->
   only_declared self inputs ->
   PromptTemplate.render self inputs = render_body self context /\
   (forall segs,
      Interpolating E ->
      Dict.contains "self" (PromptTemplate.variables self) = false ->
      Interpolation.lex (PromptTemplate.template self) = Some segs ->
      PromptTemplate.render self inputs =
      Ok (Interpolation.substitute segs context))) /\
  (* an optional variable left out *)
  (forall k s,
     Dict.get k (PromptTemplate.variables self) = Some s ->
     Dict.get k inputs = None ->
     VariableSpec.required s = false ->
     VariableSpec.default s <> VNone ->
     Dict.get k context = Some (VariableSpec.default s)) /\
  (* a required variable left out *)
  (forall k s,
     Dict.get k (PromptTemplate.variables self) = Some s ->
     Dict.get k inputs = None ->
     VariableSpec.required s = true ->
     Dict.get k context = None /\
     exists errors,
       PromptTemplate.render self inputs =
       Raise (ValueError ("Input validation failed: " ++ join "; " errors)) /\
       forall k' s',
         Dict.get k' (PromptTemplate.variables self) = Some s' ->
         Dict.get k' inputs = None ->
         VariableSpec.required s' = true ->
         In ("Required variable '" ++ k' ++ "' is missing") errors).
Proof.
  intros Hv Hk context. split; [|split; [|split]].
  - intros k v Hget. unfold context. now apply supplied_in_context.
  - intros Hs Ho. split.
    + now apply render_valid.
    + intros segs HI Hself Hlex. now apply render_interpolates.
  - intros k s Hs Hnone Hr Hd. unfold context.
    rewrite get_render_context, Hs by assumption. unfold applied. simpl.
    rewrite Hnone, Hr. simpl. destruct (VariableSpec.default s); simpl; congruence.
  - intros k s Hs Hnone Hr. split.
    + unfold context. rewrite get_render_context, Hs by assumption.
      unfold applied. simpl. now rewrite Hnone, Hr.
    + exists (PromptTemplate.validate_inputs self inputs).
      assert (Hall : forall k' s',
                 Dict.get k' (PromptTemplate.variables self) = Some s' ->
                 Dict.get k' inputs = None ->
                 VariableSpec.required s' = true ->
                 In ("Required variable '" ++ k' ++ "' is missing")
                    (PromptTemplate.validate_inputs self inputs)).
      { intros k' s' Hs' Hnone' Hr'.
        apply missing_reported with (s := s'); [now apply get_in | assumption|].
        unfold Dict.contains. now rewrite Hnone'. }
      split; [|exact Hall].
      apply render_invalid with (msg := "Required variable '" ++ k ++ "' is missing");
        try assumption.
      now apply Hall with (s' := s).
Qed.

End RenderContract.

#[global] Instance interpolation_engine_interpolating :
  Interpolating interpolation_engine.
Proof.
  split; intros source segs Hlex; simpl; rewrite Hlex.
  - exists segs. split; [reflexivity|]. reflexivity.
  - exists segs. split; [reflexivity|]. apply Permutation_refl.
Qed.

Lemma example_template_wf : Dict.wf (PromptTemplate.variables example_template).
Proof.
  repeat constructor; simpl; try tauto.
  intros [H|[]]. discriminate H.
Qed.

Lemma C7_render_contract_witness :
  @PromptTemplate.render interpolation_engine example_template
     [("topic", VStr "monads")] =
  Ok (String.append "Explain monads in simple terms for a general audience."
        (String (ascii_of_nat 10) EmptyString)) /\
  exists errors,
    @PromptTemplate.render interpolation_engine example_template [] =
    Raise (ValueError ("Input validation failed: " ++ join "; " errors)) /\
    In "Required variable 'topic' is missing" errors.
Proof.
  split.
  - assert (Hk : Dict.wf [("topic", VStr "monads")])
      by (repeat constructor; simpl; tauto).
    destruct (@C7_render_contract interpolation_engine example_template
                [("topic", VStr "monads")] example_template_wf Hk)
      as [_ [Hall _]].
    destruct Hall as [_ Hout].
    + intros k s [[= <- <-]|[[= <- <-]|[]]]; [reflexivity | discriminate].
    + intros k [<-|[]]. reflexivity.
    + rewrite (Hout _ interpolation_engine_interpolating eq_refl eq_refl).
      reflexivity.
  - assert (Hk : Dict.wf (V := value) (K := string) []) by constructor.
    destruct (@C7_render_contract interpolation_engine example_template
                [] example_template_wf Hk)
      as [_ [_ [_ Hmissing]]].
    destruct (Hmissing "topic" _ eq_refl eq_refl eq_refl) as [_ [errors [Hr Hin]]].
    exists errors. split; [exact Hr|].
    apply (Hin "topic" _ eq_refl eq_refl eq_refl).
Defined.

(* ------------------------------------------------------------------ *)
(** * Validating a template *)

Section Validate.
Context {E : Engine}.

Lemma validate_eq self :
  syntax_errors_only self ->
  PromptTemplate.validate self =
  Ok (syntax_messages self ++ variable_messages self ++ version_messages self)%list.
Proof.
  intros Hsyn. unfold PromptTemplate.validate, syntax_messages,
    variable_messages, version_messages, syntax_errors_only in *.
  destruct (from_string (PromptTemplate.template self)) as [c|e] eqn:Hc.
  - simpl. destruct (PromptTemplate._get_template_variables self);
      destruct (PromptTemplate.version self <? 1); simpl;
      rewrite ?app_nil_r; reflexivity.
  - destruct (Hsyn e eq_refl) as [m ->]. simpl.
    destruct (PromptTemplate._get_template_variables self);
      destruct (PromptTemplate.version self <? 1); simpl;
      rewrite ?app_nil_r; reflexivity.
Qed.

(** C6.  Whenever [from_string] fails only with a syntax error,
    [validate] returns the messages of the syntax check, then those of the
    variable check, then that of the version check: each check reports
    whatever the others found.  And on the body [{{ missing_var }}] with
    no variables and a version of at least 1, an interpolating engine
    gives exactly one message, the one naming [missing_var]. *)
Theorem C6_validate_accumulates :
  (forall self,
     syntax_errors_only self ->
     exists errors,
       PromptTemplate.validate self = Ok errors /\
       errors = (syntax_messages self ++ variable_messages self
                 ++ version_messages self)%list /\
       (forall m,
          from_string (PromptTemplate.template self) = Raise (TemplateSyntaxError m) ->
          In ("Template syntax error: " ++ m) errors) /\
       (forall a var,
          parse (PromptTemplate.template self) = Ok a ->
          In var (find_undeclared_variables a) ->
          Dict.contains var (PromptTemplate.variables self) = false ->
          In ("Variable '" ++ var ++ "' used in template but not defined in variables")
             errors) /\
       (PromptTemplate.version self < 1 ->
        In ("Version must be a positive integer, got: "
              ++ str_int (PromptTemplate.version self)) errors)) /\
  (forall self,
     Interpolating E ->
     PromptTemplate.template self = "{{ missing_var }}" ->
     PromptTemplate.variables self = [] ->
     1 <= PromptTemplate.version self ->
     PromptTemplate.validate self =
     Ok ["Variable 'missing_var' used in template but not defined in variables"]).
Proof.
  split.
  - intros self Hsyn. eexists. split; [now apply validate_eq|].
    split; [reflexivity|]. split; [|split].
    + intros m Hm. apply in_or_app. left.
      unfold syntax_messages. rewrite Hm. now left.
    + intros a var Ha Hin Hc. apply in_or_app. right. apply in_or_app. left.
      unfold variable_messages, PromptTemplate._get_template_variables.
      rewrite Ha. simpl. apply in_flat_map. exists var. split; [assumption|].
      rewrite Hc. now left.
    + intros Hlt. apply in_or_app. right. apply in_or_app. right.
      unfold version_messages. apply Z.ltb_lt in Hlt. rewrite Hlt. now left.
  - intros self HI Ht Hv Hver.
    assert (Hlex : Interpolation.lex (PromptTemplate.template self)
                   = Some [Interpolation.Var "missing_var"])
      by (rewrite Ht; reflexivity).
    destruct (interpolating_from_string _ _ Hlex) as [c [Hc _]].
    destruct (interpolating_parse _ _ Hlex) as [a [Ha Hperm]].
    apply Permutation_sym, Permutation_length_1_inv in Hperm.
    rewrite validate_eq by (intros e He; congruence).
    unfold syntax_messages, variable_messages, version_messages,
      PromptTemplate._get_template_variables.
    rewrite Hc, Ha. simpl. rewrite Hperm, Hv. simpl.
    apply Z.ltb_ge in Hver. now rewrite Hver.
Qed.

End Validate.

Lemma C6_validate_accumulates_witness :
  @PromptTemplate.validate interpolation_engine
    {| PromptTemplate.name := "p"; PromptTemplate.template := "{{ missing_var }}";
       PromptTemplate.version := 1; PromptTemplate.description := "";
       PromptTemplate.variables := [] |} =
  Ok ["Variable 'missing_var' used in template but not defined in variables"] /\
  exists errors,
    @PromptTemplate.validate interpolation_engine broken_template = Ok errors /\
    In "Template syntax error: outside the interpolation fragment" errors /\
    In "Version must be a positive integer, got: 0" errors.
Proof.
  split.
  - apply (proj2 (@C6_validate_accumulates interpolation_engine));
      [exact interpolation_engine_interpolating | reflexivity | reflexivity | simpl; lia].
  - destruct (proj1 (@C6_validate_accumulates interpolation_engine) broken_template)
      as [errors [Hv [_ [Hsyn [_ Hver]]]]].
    + intros e He. simpl in He. injection He as <-. eauto.
    + exists errors. split; [exact Hv|]. split.
      * apply (Hsyn "outside the interpolation fragment"). reflexivity.
      * apply Hver. simpl. lia.
Defined.

(* ------------------------------------------------------------------ *)
(** * Loading the registry *)

Import PromptRegistry.

Lemma set_templates_same w : set_templates (_templates (self w)) w = w.
Proof. now destruct w as [d [dir ts ld]]. Qed.

Lemma set_templates_twice ts ts' w :
  set_templates ts (set_templates ts' w) = set_templates ts w.
Proof. reflexivity. Qed.

Lemma set_set {K V} `{Dict.Key K} (k : K) (v v' : V) (d : Dict.t K V) :
  Dict.set k v (Dict.set k v' d) = Dict.set k v d.
Proof.
  induction d as [|[k0 v0] d IH]; simpl.
  - now rewrite eqb_refl.
  - destruct (Dict.eqb_spec k k0) as [->|Hne]; simpl.
    + now rewrite eqb_refl.
    + rewrite eqb_neq by assumption. now rewrite IH.
Qed.

(** [_load_file] in one step. *)
Lemma _load_file_eq f w :
  _load_file f w =
  match parsed_template f with
  | Ok None => (Ok tt, w)
  | Ok (Some template) =>
      (Ok tt, set_templates (store template (_templates (self w))) w)
  | Raise e => (Raise (load_error (prompts_dir (self w)) f e), w)
  end.
Proof.
  unfold _load_file, parsed_template, try_except, gets, lift, modify. simpl.
  destruct (Disk.safe_load f) as [data|e]; simpl.
  2: { now destruct e. }
  destruct data as [|d|e]; simpl; [reflexivity| |reflexivity].
  destruct (PromptTemplate.from_dict d) as [template|e]; simpl.
  2: { now destruct e. }
  set (t := if String.eqb (PromptTemplate.name template) "unnamed"
            then PromptTemplate.set_name template (Disk.stem (Disk.filename f))
            else template).
  unfold store, getitem, Dict.contains.
  destruct (Dict.get (PromptTemplate.name t) (_templates (self w))) as [vs|] eqn:Hg;
    simpl.
  - rewrite Hg. reflexivity.
  - rewrite get_set_eq. simpl. now rewrite set_set.
Qed.

Lemma for_each_load_file fs w :
  for_each fs _load_file w =
  (fst (load_files (prompts_dir (self w)) fs (_templates (self w))),
   set_templates
     (snd (load_files (prompts_dir (self w)) fs (_templates (self w)))) w).
Proof.
  revert w. induction fs as [|f fs IH]; intros w; simpl.
  - now rewrite set_templates_same.
  - rewrite _load_file_eq.
    destruct (parsed_template f) as [[template|]|e]; simpl.
    + rewrite IH. reflexivity.
    + apply IH.
    + now rewrite set_templates_same.
Qed.

Lemma load_files_app dir fs1 fs2 ts :
  load_files dir (fs1 ++ fs2) ts =
  match load_files dir fs1 ts with
  | (Ok _, ts') => load_files dir fs2 ts'
  | r => r
  end.
Proof.
  revert ts. induction fs1 as [|f fs1 IH]; intros ts; simpl; [reflexivity|].
  destruct (parsed_template f) as [[template|]|e]; auto.
Qed.

(** [load] in one step. *)
Lemma load_eq w :
  load w =
  match disk w with
  | None => (Ok tt, set_loaded true (set_templates Dict.empty w))
  | Some files =>
      match load_files (prompts_dir (self w)) (scan files) Dict.empty with
      | (Ok _, ts) => (Ok tt, set_loaded true (set_templates ts w))
      | (Raise e, ts) => (Raise e, set_templates ts w)
      end
  end.
Proof.
  unfold load, modify, gets. cbn -[for_each load_files scan].
  destruct (disk w) as [files|] eqn:Hd; [|reflexivity].
  unfold scan. rewrite load_files_app.
  cbn -[for_each load_files]. rewrite for_each_load_file. cbn -[for_each load_files].
  destruct (load_files (prompts_dir (self w)) (Disk.glob ".yaml" files) Dict.empty)
    as [[[]|e] ts1]; cbn -[for_each load_files]; [|reflexivity].
  rewrite for_each_load_file. cbn -[for_each load_files].
  destruct (load_files (prompts_dir (self w)) (Disk.glob ".yml" files) ts1)
    as [[[]|e] ts2]; reflexivity.
Qed.

Lemma load_files_good dir fs ts :
  Forall (fun f => ~ fails_to_parse f) fs ->
  exists ts', load_files dir fs ts = (Ok tt, ts').
Proof.
  revert ts. induction fs as [|f fs IH]; intros ts Hall; simpl; [eauto|].
  inversion Hall as [|? ? Hf Hall']; subst.
  destruct (parsed_template f) as [[template|]|e] eqn:Hp; [now apply IH.. |].
  exfalso. apply Hf. now exists e.
Qed.

Lemma load_files_failure dir good bad rest ts e :
  Forall (fun f => ~ fails_to_parse f) good ->
  parsed_template bad = Raise e ->
  load_files dir (good ++ bad :: rest) ts =
  (Raise (load_error dir bad e), snd (load_files dir good ts)).
Proof.
  intros Hgood Hbad. rewrite load_files_app.
  destruct (load_files_good dir good ts Hgood) as [ts' ->]. simpl.
  now rewrite Hbad.
Qed.

Lemma fails_to_parse_dec f : {fails_to_parse f} + {~ fails_to_parse f}.
Proof.
  unfold fails_to_parse. destruct (parsed_template f) as [o|e].
  - right. intros [e He]. discriminate.
  - left. now exists e.
Qed.

Lemma first_failure (fs : list Disk.file) :
  Exists fails_to_parse fs ->
  exists good bad rest,
    fs = (good ++ bad :: rest)%list /\
    Forall (fun f => ~ fails_to_parse f) good /\
    fails_to_parse bad.
Proof.
  induction fs as [|f fs IH]; intros Hex; [inversion Hex|].
  destruct (fails_to_parse_dec f) as [Hf|Hf].
  - exists [], f, fs. repeat split; [constructor | assumption].
  - inversion Hex as [? ? Hf'|? ? Hex']; subst; [contradiction|].
    destruct (IH Hex') as (good & bad & rest & -> & Hgood & Hbad).
    exists (f :: good), bad, rest. repeat split; [now constructor | assumption].
Qed.





(* ------------------------------------------------------------------ *)
(** * Creating a prompt *)

Lemma load_keeps_disk w : disk (snd (load w)) = disk w.
Proof.
  rewrite load_eq. destruct (disk w) as [files|] eqn:Hd; simpl; [|assumption].
  destruct (load_files (prompts_dir (self w)) (scan files) Dict.empty)
    as [[[]|e] ts]; simpl; assumption.
Qed.

Lemma load_keeps_prompts_dir w :
  prompts_dir (self (snd (load w))) = prompts_dir (self w).
Proof.
  rewrite load_eq. destruct (disk w) as [files|]; simpl; [|reflexivity].
  destruct (load_files (prompts_dir (self w)) (scan files) Dict.empty)
    as [[[]|e] ts]; reflexivity.
Qed.

Lemma reload_eq w : reload w = load (set_loaded false w).
Proof. reflexivity. Qed.

(** [create_prompt] in one step: create the directory, write the file
    whatever was there, reload. *)
Lemma create_prompt_eq name template description variables version w :
  create_prompt name template description variables version w =
  let written :=
    set_disk
      (Disk.write (created_filename name version)
         (Disk.Parsed (Raw.PDict
            (created_document name template description variables version)))
         (Disk.mkdir (disk w)))
      w in
  match reload written with
  | (Ok _, w') =>
      (Ok (join "/" [prompts_dir (self w); created_filename name version]), w')
  | (Raise e, w') => (Raise e, w')
  end.
Proof.
  unfold create_prompt, modify, gets. cbn -[reload join Disk.write Disk.mkdir].
  fold (created_filename name version).
  fold (created_document name template description variables version).
  destruct (reload _) as [[[]|e] w']; reflexivity.
Qed.

Lemma read_write_file name c files :
  read_file name (Disk.write_file name c files) = Some c.
Proof.
  induction files as [|f files IH]; simpl.
  - now rewrite String.eqb_refl.
  - destruct (Disk.subdir f) eqn:Hs; simpl.
    + destruct (String.eqb (Disk.filename f) name) eqn:Hn; simpl.
      * now rewrite String.eqb_refl.
      * now rewrite Hs, Hn.
    + now rewrite Hs.
Qed.

Lemma read_write name c d : read name (Disk.write name c d) = Some c.
Proof.
  destruct d as [files|]; simpl.
  - apply read_write_file.
  - now rewrite String.eqb_refl.
Qed.




Lemma in_scan f files :
  In f files ->
  Disk.ends_with ".yaml" (Disk.filename f) = true
  \/ Disk.ends_with ".yml" (Disk.filename f) = true ->
  In f (scan files).
Proof.
  unfold scan, Disk.glob. intros Hin [He|He]; apply in_or_app;
    [left | right]; apply filter_In; tauto.
Qed.

Lemma load_files_ok_inv dir fs ts ts' :
  load_files dir fs ts = (Ok tt, ts') ->
  Forall (fun f => ~ fails_to_parse f) fs.
Proof.
  revert ts. induction fs as [|f fs IH]; intros ts Hl; [constructor|].
  simpl in Hl. destruct (parsed_template f) as [[template|]|e] eqn:Hp.
  - constructor; [intros [e He]; congruence | eapply IH; eassumption].
  - constructor; [intros [e He]; congruence | eapply IH; eassumption].
  - discriminate.
Qed.



Lemma write_mkdir name c d :
  Disk.write name c (Disk.mkdir d) = Some (Disk.write_file name c (files_of d)).
Proof. now destruct d. Qed.





(* ------------------------------------------------------------------ *)
(** * Looking a prompt up *)

Lemma py_max_spec (l : list Z) (x : Z) :
  In (py_max x l) (x :: l) /\ forall v, In v (x :: l) -> v <= py_max x l.
Proof.
  unfold py_max. revert x. induction l as [|y l IH]; intros x; simpl.
  - split; [now left | intros v [<-|[]]; lia].
  - destruct (IH (Z.max x y)) as [Hin Hle]. split.
    + destruct Hin as [Heq|Hin]; [|right; now right].
      rewrite <- Heq. destruct (Z.max_spec x y) as [[_ ->]|[_ ->]];
        [right; now left | now left].
    + intros v [Hv|[Hv|Hv]].
      * specialize (Hle (Z.max x y) (or_introl eq_refl)). lia.
      * specialize (Hle (Z.max x y) (or_introl eq_refl)). lia.
      * apply Hle. now right.
Qed.

Lemma _ensure_loaded_loaded w :
  _loaded (self w) = true -> _ensure_loaded w = (Ok tt, w).
Proof.
  intros Hl. unfold _ensure_loaded, gets. simpl. now rewrite Hl.
Qed.

Lemma get_eq name version w :
  get name version w =
  match _ensure_loaded w with
  | (Ok _, w') => (get_result name version (_templates (self w')), w')
  | (Raise e, w') => (Raise e, w')
  end.
Proof.
  unfold get, get_result. cbn -[_ensure_loaded py_max].
  destruct (_ensure_loaded w) as [[[]|e] w']; [|reflexivity].
  unfold gets, lift, getitem, Dict.contains. cbn -[py_max].
  destruct (Dict.get name (_templates (self w'))) as [versions|]; cbn -[py_max];
    [|reflexivity].
  destruct version as [v|]; [reflexivity|].
  destruct (Dict.keys versions) as [|k ks]; [reflexivity|]. cbn -[py_max].
  destruct (Dict.get (py_max k ks) versions); reflexivity.
Qed.

Lemma get_result_latest name (ts : index) (versions : Dict.t Z PromptTemplate.t) :
  Dict.get name ts = Some versions ->
  versions <> [] ->
  exists m template,
    get_result name None ts = Ok (Some template) /\
    Dict.get m versions = Some template /\
    In m (Dict.keys versions) /\
    forall v, In v (Dict.keys versions) -> v <= m.
Proof.
  intros Hg Hne. unfold get_result. rewrite Hg.
  destruct versions as [|[k t0] versions']; [contradiction|].
  change (Dict.keys ((k, t0) :: versions')) with (k :: Dict.keys versions').
  destruct (py_max_spec (Dict.keys versions') k) as [Hin Hmax].
  set (m := py_max k (Dict.keys versions')) in *.
  assert (Hsome : exists template, Dict.get m ((k, t0) :: versions') = Some template).
  { apply contains_get, contains_iff. exact Hin. }
  destruct Hsome as [template Ht]. exists m, template. rewrite Ht. auto.
Qed.

(** C5.  On a loaded registry [get] leaves the registry as it is and
    returns: [None] for a name that is not in the index, whatever the
    version asked for; with a version, the entry stored under exactly that
    version, or [None]; without one, the entry stored under the greatest
    version of the name. *)
Theorem C5_get name w :
  _loaded (self w) = true ->
  (Dict.get name (_templates (self w)) = None ->
   forall version, get name version w = (Ok None, w)) /\
  (forall versions : Dict.t Z PromptTemplate.t,
     Dict.get name (_templates (self w)) = Some versions ->
     (forall v, get name (Some v) w = (Ok (Dict.get v versions), w)) /\
     (versions = [] -> get name None w = (Ok None, w)) /\
     (versions <> [] ->
      exists m template,
        get name None w = (Ok (Some template), w) /\
        Dict.get m versions = Some template /\
        In m (Dict.keys versions) /\
        forall v, In v (Dict.keys versions) -> v <= m)).
Proof.
  intros Hl. split.
  - intros Hnone version. rewrite get_eq, _ensure_loaded_loaded by assumption.
    unfold get_result. now rewrite Hnone.
  - intros versions Hg. split; [|split].
    + intros v. rewrite get_eq, _ensure_loaded_loaded by assumption.
      unfold get_result. now rewrite Hg.
    + intros ->. rewrite get_eq, _ensure_loaded_loaded by assumption.
      unfold get_result. now rewrite Hg.
    + intros Hne.
      destruct (get_result_latest name _ versions Hg Hne)
        as (m & template & Hr & Hm & Hin & Hmax).
      exists m, template. rewrite get_eq, _ensure_loaded_loaded by assumption.
      rewrite Hr. auto.
Qed.

Lemma C5_get_witness :
  (exists template,
     get "x" None versions_world = (Ok (Some template), versions_world) /\
     PromptTemplate.version template = 5) /\
  get "x" (Some 3) versions_world = (Ok None, versions_world) /\
  get "y" None versions_world = (Ok None, versions_world).
Proof.
  destruct (C5_get "x" versions_world eq_refl) as [_ Hx].
  destruct (C5_get "y" versions_world eq_refl) as [Hy _].
  destruct (Hx _ eq_refl) as (Hv & _ & Hlatest).
  split; [|split].
  - destruct Hlatest as (m & template & Hg & _); [discriminate|].
    exists template. split; [exact Hg|].
    assert (Hc : get "x" None versions_world
                 = (Ok (Some {| PromptTemplate.name := "x";
                                PromptTemplate.template := "version 5";
                                PromptTemplate.version := 5;
                                PromptTemplate.description := "";
                                PromptTemplate.variables := [] |}),
                    versions_world)) by reflexivity.
    rewrite Hc in Hg. injection Hg as <-. reflexivity.
  - exact (Hv 3).
  - apply Hy. reflexivity.
Defined.

(* ------------------------------------------------------------------ *)
(** * The index invariant *)

Lemma set_nonempty {K V} `{Dict.Key K} (k : K) (v : V) (d : Dict.t K V) :
  Dict.set k v d <> [].
Proof.
  destruct d as [|[k' v'] d]; simpl; [discriminate|].
  destruct (Dict.eqb k k'); discriminate.
Qed.

Lemma index_ok_empty : index_ok Dict.empty.
Proof. split; [constructor | intros n versions []]. Qed.

Lemma store_ok template ts : index_ok ts -> index_ok (store template ts).
Proof.
  intros [Hwf Hall]. unfold store. split; [now apply set_wf|].
  intros n versions Hin. apply in_set in Hin.
  destruct Hin as [[-> ->]|Hin]; [|now apply Hall].
  destruct (Dict.get (PromptTemplate.name template) ts) as [old|] eqn:Hg.
  - apply get_in in Hg. destruct (Hall _ _ Hg) as (Hwfo & _ & Hold).
    split; [now apply set_wf|]. split; [apply set_nonempty|].
    intros v t Hvt. apply in_set in Hvt.
    destruct Hvt as [[-> ->]|Hvt]; [split; reflexivity | now apply Hold].
  - split; [apply set_wf; constructor|]. split; [apply set_nonempty|].
    intros v t [[= <- <-]|[]]. split; reflexivity.
Qed.

Lemma load_files_ok dir fs ts :
  index_ok ts -> index_ok (snd (load_files dir fs ts)).
Proof.
  revert ts. induction fs as [|f fs IH]; intros ts Hok; simpl; [assumption|].
  destruct (parsed_template f) as [[template|]|e]; simpl.
  - apply IH. now apply store_ok.
  - now apply IH.
  - assumption.
Qed.

(** Whatever the registry held and however [load] ends, the index it
    leaves satisfies the invariant. *)
Lemma load_index_ok w : index_ok (_templates (self (snd (load w)))).
Proof.
  rewrite load_eq. destruct (disk w) as [files|]; simpl.
  - pose proof (load_files_ok (prompts_dir (self w)) (scan files) Dict.empty
                  index_ok_empty) as Hok.
    destruct (load_files (prompts_dir (self w)) (scan files) Dict.empty)
      as [[[]|e] ts]; exact Hok.
  - apply index_ok_empty.
Qed.

Lemma run_call_index_ok c w : index_ok (_templates (self (snd (run_call c w)))).
Proof.
  destruct c as [| |name template description variables version]; simpl.
  - apply load_index_ok.
  - rewrite reload_eq. apply load_index_ok.
  - unfold bind. simpl. rewrite create_prompt_eq. cbv zeta.
    match goal with |- context [reload ?x] =>
      pose proof (load_index_ok (set_loaded false x)) as Hok;
      rewrite <- reload_eq in Hok;
      destruct (reload x) as [[[]|e] w']
    end; exact Hok.
Qed.

Lemma reachable_index_ok w : reachable w -> index_ok (_templates (self w)).
Proof.
  induction 1 as [dir d|w c w' _ _ Hrun|w d _ IH].
  - apply index_ok_empty.
  - pose proof (run_call_index_ok c w) as Hok. now rewrite Hrun in Hok.
  - exact IH.
Qed.

Lemma _ensure_loaded_index_ok w :
  index_ok (_templates (self w)) ->
  index_ok (_templates (self (snd (_ensure_loaded w)))).
Proof.
  intros Hok. unfold _ensure_loaded, gets. simpl.
  destruct (_loaded (self w)); simpl; [assumption | apply load_index_ok].
Qed.

Lemma __contains___eq name w :
  __contains__ name w =
  match _ensure_loaded w with
  | (Ok _, w') => (Ok (Dict.contains name (_templates (self w'))), w')
  | (Raise e, w') => (Raise e, w')
  end.
Proof.
  unfold __contains__. cbn -[_ensure_loaded].
  destruct (_ensure_loaded w) as [[[]|e] w']; reflexivity.
Qed.

Lemma get_result_contains name (ts : index) :
  index_ok ts ->
  (exists template, get_result name None ts = Ok (Some template)) <->
  Dict.contains name ts = true.
Proof.
  intros [Hwf Hall]. split.
  - intros [template Hg]. unfold get_result in Hg. unfold Dict.contains.
    destruct (Dict.get name ts); [reflexivity | discriminate].
  - intros Hc. apply contains_get in Hc. destruct Hc as [versions Hg].
    destruct (Hall _ _ (get_in _ _ _ Hg)) as (_ & Hne & _).
    destruct (get_result_latest name ts versions Hg Hne) as (m & template & Hr & _).
    now exists template.
Qed.

(** C9.  In every world a registry reaches, each name of the index has at
    least one version, each entry carries the name and the version it is
    stored under, and [get] without a version returns a template for
    exactly the names that [__contains__] accepts. *)
Theorem C9_index_consistent w :
  reachable w ->
  index_ok (_templates (self w)) /\
  (forall n versions,
     Dict.get n (_templates (self w)) = Some versions ->
     versions <> [] /\
     forall v template,
       Dict.get v versions = Some template ->
       PromptTemplate.name template = n /\ PromptTemplate.version template = v) /\
  (forall n,
     (exists template, fst (get n None w) = Ok (Some template)) <->
     fst (__contains__ n w) = Ok true).
Proof.
  intros Hreach. pose proof (reachable_index_ok w Hreach) as Hok.
  split; [assumption|]. split.
  - intros n versions Hg. destruct Hok as [_ Hall].
    destruct (Hall _ _ (get_in _ _ _ Hg)) as (_ & Hne & Hent).
    split; [assumption|]. intros v template Hv. apply Hent. now apply get_in.
  - intros n. rewrite get_eq, __contains___eq.
    pose proof (_ensure_loaded_index_ok w Hok) as Hok'.
    destruct (_ensure_loaded w) as [[[]|e] w']; simpl in *.
    + rewrite (get_result_contains n _ Hok'). split; congruence.
    + split; [intros [template Ht]; discriminate | discriminate].
Qed.

Lemma C9_index_consistent_witness :
  let w := snd (load scenario_world) in
  index_ok (_templates (self w)) /\
  (exists template, fst (get "a" None w) = Ok (Some template)) /\
  fst (__contains__ "a" w) = Ok true.
Proof.
  intros w.
  assert (Hreach : reachable w).
  { apply (reachable_call scenario_world CallLoad w); [apply reachable_init | reflexivity]. }
  destruct (C9_index_consistent w Hreach) as (Hok & _ & Hiff).
  split; [exact Hok|]. split; [|reflexivity].
  apply Hiff. reflexivity.
Defined.

(* ------------------------------------------------------------------ *)
(** * What [load] puts into the index *)

Lemma lookup_store_same template (ts : index) :
  lookup (PromptTemplate.name template) (PromptTemplate.version template)
    (store template ts) = Some template.
Proof.
  unfold lookup, store. rewrite get_set_eq. apply get_set_eq.
Qed.

Lemma lookup_store_other template (ts : index) n v :
  (n, v) <> (PromptTemplate.name template, PromptTemplate.version template) ->
  lookup n v (store template ts) = lookup n v ts.
Proof.
  intros Hne. unfold lookup, store.
  destruct (String.eqb_spec (PromptTemplate.name template) n) as [<-|Hn].
  - rewrite get_set_eq.
    assert (Hv : PromptTemplate.version template <> v) by congruence.
    rewrite get_set_neq by assumption.
    now destruct (Dict.get (PromptTemplate.name template) ts).
  - now rewrite get_set_neq by assumption.
Qed.

Lemma stored_template_name f template :
  PromptTemplate.name (stored_template f template) = stored_name f template /\
  PromptTemplate.version (stored_template f template) = PromptTemplate.version template.
Proof.
  unfold stored_template, stored_name.
  destruct (String.eqb (PromptTemplate.name template) "unnamed"); split; reflexivity.
Qed.

Section Scenario.
Context {E : Engine} `{!Interpolating E}.

Lemma render_hi_yo :
  PromptTemplate.render
    {| PromptTemplate.name := "a"; PromptTemplate.template := "Hi {{ x }}";
       PromptTemplate.version := 1; PromptTemplate.description := "";
       PromptTemplate.variables := [("x", VariableSpec.make "x" true)] |}
    [("x", VStr "yo")] = Ok "Hi yo".
Proof.
  rewrite (render_interpolates _ _ [Interpolation.Text "Hi "; Interpolation.Var "x"]).
  - reflexivity.
  - repeat constructor. simpl. tauto.
  - repeat constructor. simpl. tauto.
  - intros k s [[= <- <-]|[]] _. reflexivity.
  - intros k [<-|[]]. reflexivity.
  - reflexivity.
  - reflexivity.
Qed.

(** C8.  A document that parses is stored by [_load_file] under its name,
    or under the stem of its file name when the name is ["unnamed"], and
    under its version; whatever was at that name and version before is
    replaced and every other entry is as before.  In the directory with
    [a.yaml] and [a_v2.yaml], in either scan order, [load] gives versions
    1 and 2 of [a], [get] without a version gives version 2, and version 1
    renders its own body. *)
Theorem C8_load_indexes :
  (forall f data template w,
     Disk.safe_load f = Ok (Raw.PDict data) ->
     PromptTemplate.from_dict data = Ok template ->
     exists w',
       _load_file f w = (Ok tt, w') /\
       disk w' = disk w /\
       (PromptTemplate.name template = "unnamed" ->
        stored_name f template = Disk.stem (Disk.filename f)) /\
       (PromptTemplate.name template <> "unnamed" ->
        stored_name f template = PromptTemplate.name template) /\
       PromptTemplate.name (stored_template f template) = stored_name f template /\
       lookup (stored_name f template) (PromptTemplate.version template)
         (_templates (self w')) = Some (stored_template f template) /\
       forall n v,
         (n, v) <> (stored_name f template, PromptTemplate.version template) ->
         lookup n v (_templates (self w')) = lookup n v (_templates (self w))) /\
  (forall files,
     files = [a_yaml; a_v2_yaml] \/ files = [a_v2_yaml; a_yaml] ->
     exists w,
       load (fresh (Some files)) = (Ok tt, w) /\
       fst (list_versions "a" w) = Ok [1; 2] /\
       exists latest first,
         fst (get "a" None w) = Ok (Some latest) /\
         PromptTemplate.version latest = 2 /\
         fst (get "a" (Some 1) w) = Ok (Some first) /\
         PromptTemplate.render first [("x", VStr "yo")] = Ok "Hi yo").
Proof.
  split.
  - intros f data template w Hload Hparse.
    exists (set_templates (store (stored_template f template) (_templates (self w))) w).
    assert (Hp : parsed_template f = Ok (Some (stored_template f template))).
    { unfold parsed_template. rewrite Hload. simpl. now rewrite Hparse. }
    destruct (stored_template_name f template) as [Hn Hv].
    split; [now rewrite _load_file_eq, Hp|]. split; [reflexivity|].
    split; [|split; [|split; [|split]]].
    + intros Hu. unfold stored_name. now rewrite Hu.
    + intros Hu. unfold stored_name. apply String.eqb_neq in Hu. now rewrite Hu.
    + exact Hn.
    + simpl. rewrite <- Hn, <- Hv. apply lookup_store_same.
    + intros n v Hne. simpl. apply lookup_store_other. now rewrite Hn, Hv.
  - intros files [->| ->]; eexists; (split; [reflexivity|]);
      (split; [reflexivity|]); do 2 eexists;
      (split; [reflexivity|]); (split; [reflexivity|]);
      (split; [reflexivity|]); apply render_hi_yo.
Qed.

End Scenario.

Lemma C8_load_indexes_witness :
  exists w,
    load scenario_world = (Ok tt, w) /\
    fst (list_versions "a" w) = Ok [1; 2] /\
    lookup "a" 1 (_templates (self w)) =
      Some {| PromptTemplate.name := "a"; PromptTemplate.template := "Hi {{ x }}";
              PromptTemplate.version := 1; PromptTemplate.description := "";
              PromptTemplate.variables := [("x", VariableSpec.make "x" true)] |}.
Proof.
  destruct (proj2 (@C8_load_indexes interpolation_engine
                     interpolation_engine_interpolating)
              [a_yaml; a_v2_yaml] (or_introl eq_refl))
    as (w & Hload & Hversions & _).
  exists w. split; [exact Hload|]. split; [exact Hversions|].
  assert (Hw : w = snd (load scenario_world)).
  { unfold scenario_world. now rewrite Hload. }
  rewrite Hw. reflexivity.
Defined.

(* ------------------------------------------------------------------ *)
(** * Rendering through the registry *)

Lemma plain_keywords_not_refused version kwargs :
  plain_keywords kwargs -> refused_keyword version kwargs = None.
Proof.
  intros Hplain. unfold refused_keyword.
  assert (Hkeys : forall k, In k ["self"; "name"; "version"] ->
                            ~ In k (Dict.keys kwargs)).
  { intros k Hk. apply contains_false_iff. now apply Hplain. }
  induction (Dict.keys kwargs) as [|k ks IH]; simpl; [reflexivity|].
  destruct (existsb (String.eqb k) (filled_parameters version)) eqn:Hex.
  - exfalso. apply existsb_exists in Hex. destruct Hex as [p [Hp Heq]].
    apply String.eqb_eq in Heq. subst p. apply (Hkeys k); [|now left].
    destruct version; simpl in Hp; simpl; tauto.
  - apply IH. intros k' Hk' Hin. apply (Hkeys k' Hk'). now right.
Qed.




Section RegistryRender.
Context {E : Engine}.


End RegistryRender.



Example create_then_render :
  exists template,
    fst (get "p" None (snd first_create)) = Ok (Some template) /\
    @PromptTemplate.render interpolation_engine template [("n", VStr "Sam")] =
    Ok "Hello Sam".
Proof. eexists. split; reflexivity. Qed.

(* ------------------------------------------------------------------ *)
(** * More on templates: validation of inputs, outcomes of [render],
      the two variable lists, serialization *)

Lemma flat_map_nil_inv {A B} (f : A -> list B) (l : list A) :
  flat_map f l = [] -> forall a, In a l -> f a = [].
Proof.
  induction l as [|x l IH]; simpl; [tauto|].
  intros Hnil a [<-|Hin].
  - now apply app_eq_nil in Hnil.
  - apply IH; [now apply app_eq_nil in Hnil | assumption].
Qed.

Lemma validate_inputs_nil_inv self inputs :
  PromptTemplate.validate_inputs self inputs = [] ->
  supplies_required self inputs /\ only_declared self inputs.
Proof.
  unfold PromptTemplate.validate_inputs. simpl. intros Hnil.
  apply app_eq_nil in Hnil. destruct Hnil as [Hreq Hunk]. split.
  - intros k s Hin Hr.
    pose proof (flat_map_nil_inv _ _ Hreq (k, s) Hin) as Hk. simpl in Hk.
    rewrite Hr in Hk. simpl in Hk.
    destruct (Dict.contains k inputs); [reflexivity | discriminate].
  - intros k Hin.
    pose proof (flat_map_nil_inv _ _ Hunk k Hin) as Hk. simpl in Hk.
    destruct (Dict.contains k (PromptTemplate.variables self));
      [reflexivity | discriminate].
Qed.



Section RenderOutcomes.
Context {E : Engine}.

Lemma render_body_never_undefined self context m :
  render_body self context <> Raise (UndefinedError m).
Proof.
  unfold render_body.
  destruct (tpl <- from_string (PromptTemplate.template self);;
            render_compiled tpl context) as [s|[]]; discriminate.
Qed.

Lemma render_unfold self inputs :
  PromptTemplate.render self inputs =
  match PromptTemplate.validate_inputs self
          (PromptTemplate.render_context self inputs) with
  | [] => render_body self (PromptTemplate.render_context self inputs)
  | errors =>
      Raise (ValueError ("Input validation failed: " ++ join "; " errors))
  end.
Proof.
  unfold PromptTemplate.render, render_body.
  now destruct (PromptTemplate.validate_inputs self
                  (PromptTemplate.render_context self inputs)).
Qed.

(** [render] never lets an [UndefinedError] out, and it returns a string
    only for inputs that supply every required variable and nothing
    undeclared; the string is then what the engine makes of the body and
    the context. *)
Theorem render_ok_only_if_valid self inputs :
  (forall m, PromptTemplate.render self inputs <> Raise (UndefinedError m)) /\
  (Dict.wf (PromptTemplate.variables self) ->
   Dict.wf inputs ->
   forall text,
     PromptTemplate.render self inputs = Ok text ->
     supplies_required self inputs /\
     only_declared self inputs /\
     render_body self (PromptTemplate.render_context self inputs) = Ok text).
Proof.
  split.
  - intros m. rewrite render_unfold.
    destruct (PromptTemplate.validate_inputs self
                (PromptTemplate.render_context self inputs));
      [apply render_body_never_undefined | discriminate].
  - intros Hv Hk text Hr. rewrite render_eq in Hr by assumption.
    destruct (PromptTemplate.validate_inputs self inputs) eqn:Hval;
      [|discriminate].
    apply validate_inputs_nil_inv in Hval. tauto.
Qed.

(** With valid inputs, an exception of the engine other than
    [UndefinedError] leaves [render] as it is: a body with a syntax error
    makes [render] raise [TemplateSyntaxError], not [ValueError]. *)
Theorem render_engine_error_passes self inputs e :
  Dict.wf (PromptTemplate.variables self) ->
  Dict.wf inputs ->
  supplies_required self inputs ->
  only_declared self inputs ->
  from_string (PromptTemplate.template self) = Raise e ->
  (forall m, e <> UndefinedError m) ->
  PromptTemplate.render self inputs = Raise e.
Proof.
  intros Hv Hk Hs Ho He Hne. rewrite render_valid by assumption.
  unfold render_body. rewrite He. simpl.
  destruct e; try reflexivity. exfalso. now apply (Hne msg).
Qed.

End RenderOutcomes.

Lemma render_ok_only_if_valid_witness :
  supplies_required example_template [("topic", VStr "monads")] /\
  only_declared example_template [("topic", VStr "monads")].
Proof.
  assert (Hk : Dict.wf [("topic", VStr "monads")])
    by (repeat constructor; simpl; tauto).
  destruct (proj2 (@render_ok_only_if_valid interpolation_engine example_template
                     [("topic", VStr "monads")])
              example_template_wf Hk _ eq_refl) as (Hs & Ho & _).
  split; assumption.
Defined.

Lemma render_engine_error_passes_witness :
  @PromptTemplate.render interpolation_engine broken_template [] =
  Raise (TemplateSyntaxError "outside the interpolation fragment").
Proof.
  apply (@render_engine_error_passes interpolation_engine broken_template []).
  - constructor.
  - constructor.
  - intros k s [].
  - intros k [].
  - reflexivity.
  - discriminate.
Defined.

(** [get_required_variables] and [get_optional_variables] split the
    declared names: each list keeps the declaration order, together they
    are a rearrangement of the declared names, a name is required exactly
    when some declaration of it is, and with distinct declared names no
    name is in both lists. *)
Theorem required_optional_partition self :
  let required := PromptTemplate.get_required_variables self in
  let optional := PromptTemplate.get_optional_variables self in
  Permutation (required ++ optional)%list (Dict.keys (PromptTemplate.variables self)) /\
  (forall k, In k required <->
             exists s, In (k, s) (PromptTemplate.variables self)
                       /\ VariableSpec.required s = true) /\
  (forall k, In k optional <->
             exists s, In (k, s) (PromptTemplate.variables self)
                       /\ VariableSpec.required s = false) /\
  (Dict.wf (PromptTemplate.variables self) ->
   forall k, ~ (In k required /\ In k optional)).
Proof.
  unfold PromptTemplate.get_required_variables, PromptTemplate.get_optional_variables.
  set (vars := PromptTemplate.variables self). cbv zeta.
  assert (Hreq : forall k,
    In k (map fst (filter (fun '(_, spec) => VariableSpec.required spec) vars)) <->
    exists s, In (k, s) vars /\ VariableSpec.required s = true).
  { intros k. rewrite in_map_iff. split.
    - intros [[k' s] [<- Hin]]. apply filter_In in Hin. now exists s.
    - intros [s [Hin Hr]]. exists (k, s). split; [reflexivity|].
      apply filter_In. now split. }
  assert (Hopt : forall k,
    In k (map fst (filter (fun '(_, spec) => negb (VariableSpec.required spec)) vars)) <->
    exists s, In (k, s) vars /\ VariableSpec.required s = false).
  { intros k. rewrite in_map_iff. split.
    - intros [[k' s] [<- Hin]]. apply filter_In in Hin. exists s.
      destruct Hin as [Hin Hr]. apply negb_true_iff in Hr. now split.
    - intros [s [Hin Hr]]. exists (k, s). split; [reflexivity|].
      apply filter_In. split; [assumption|]. now apply negb_true_iff. }
  split; [|split; [exact Hreq | split; [exact Hopt|]]].
  - unfold Dict.keys. clear Hreq Hopt. induction vars as [|[k s] vars IH]; simpl.
    + constructor.
    + destruct (VariableSpec.required s); simpl.
      * now constructor.
      * apply Permutation_sym, Permutation_cons_app, Permutation_sym. exact IH.
  - intros Hwf k [Hr Ho].
    apply Hreq in Hr. apply Hopt in Ho.
    destruct Hr as [s1 [H1 Hr1]]. destruct Ho as [s2 [H2 Hr2]].
    apply (in_get _ _ _ Hwf) in H1. apply (in_get _ _ _ Hwf) in H2.
    congruence.
Qed.

Lemma required_optional_partition_witness :
  PromptTemplate.get_required_variables example_template = ["topic"] /\
  PromptTemplate.get_optional_variables example_template = ["audience"] /\
  ~ (In "topic" (PromptTemplate.get_required_variables example_template) /\
     In "topic" (PromptTemplate.get_optional_variables example_template)).
Proof.
  split; [reflexivity|]. split; [reflexivity|].
  apply (proj2 (proj2 (proj2 (required_optional_partition example_template)))).
  exact example_template_wf.
Defined.

Lemma to_dict_eq self :
  PromptTemplate.to_dict self =
  {| Raw.name := Some (PromptTemplate.name self);
     Raw.version := Some (PromptTemplate.version self);
     Raw.document_description := Some (PromptTemplate.description self);
     Raw.variables := Some (Raw.VarsDict (serialized_variables self));
     Raw.template := Some (PromptTemplate.template self) |}.
Proof. reflexivity. Qed.

Lemma var_dict_reparsed k s : var_dict (reparsed k s) = var_dict s.
Proof.
  unfold var_dict, reparsed, VariableSpec.from_dict. simpl.
  destruct (VariableSpec.required s); simpl; [reflexivity|].
  destruct (VariableSpec.default s); reflexivity.
Qed.

Lemma map_ext_in_pairs {K X Y} (f g : K -> X -> Y) (l : list (K * X)) :
  (forall k x, In (k, x) l -> f k x = g k x) ->
  map (fun '(k, x) => (k, f k x)) l = map (fun '(k, x) => (k, g k x)) l.
Proof.
  intros Hfg. apply map_ext_in. intros [k x] Hin. now rewrite Hfg.
Qed.

(** Serializing is stable: what [from_dict] makes of a serialized
    template serializes to the same document again.  And a template whose
    variables are named after their keys and whose required variables
    carry no default comes back from [to_dict] and [from_dict] unchanged. *)
Theorem to_dict_from_dict_stable self :
  Dict.wf (PromptTemplate.variables self) ->
  exists self',
    PromptTemplate.from_dict (PromptTemplate.to_dict self) = Ok self' /\
    PromptTemplate.to_dict self' = PromptTemplate.to_dict self /\
    normalized self' /\
    (normalized self -> self' = self).
Proof.
  intros Hwf. eexists. split; [apply (from_dict_to_dict self Hwf)|].
  set (self' := {| PromptTemplate.name := PromptTemplate.name self;
                   PromptTemplate.template := PromptTemplate.template self;
                   PromptTemplate.version := PromptTemplate.version self;
                   PromptTemplate.description := PromptTemplate.description self;
                   PromptTemplate.variables :=
                     map (fun '(k, s) => (k, reparsed k s))
                       (PromptTemplate.variables self) |}).
  assert (Hwf' : Dict.wf (PromptTemplate.variables self')).
  { unfold Dict.wf. simpl. now rewrite (keys_map_values reparsed). }
  split; [|split].
  - rewrite !to_dict_eq. simpl. do 3 f_equal.
    rewrite !serialized_variables_wf by assumption. simpl.
    rewrite map_map. apply map_ext. intros [k s]. now rewrite var_dict_reparsed.
  - split; [exact Hwf'|]. simpl. intros k s' Hin.
    apply in_map_iff in Hin. destruct Hin as [[k0 s] [[= <- <-] _]].
    destruct (reparsed_fields k0 s) as (Hn & Hr & _ & Hd).
    split; [exact Hn|]. intros Hreq. rewrite Hd. rewrite Hr in Hreq.
    now rewrite Hreq.
  - intros [_ Hnorm]. destruct self as [n t v d vars]. unfold self'. simpl in *.
    f_equal. rewrite <- (map_id vars) at 2. apply map_ext_in.
    intros [k s] Hin. f_equal.
    destruct (Hnorm k s Hin) as [Hname Hdef].
    destruct s as [sn sr sd sdesc]. simpl in *. subst sn.
    unfold reparsed, var_dict, VariableSpec.from_dict. simpl. f_equal.
    destruct sr; simpl.
    + now rewrite Hdef.
    + now destruct sd.
Qed.

Lemma to_dict_from_dict_stable_witness :
  PromptTemplate.from_dict (PromptTemplate.to_dict example_template) =
  Ok example_template.
Proof.
  destruct (to_dict_from_dict_stable example_template example_template_wf)
    as (self' & Hparse & _ & _ & Hsame).
  rewrite Hparse. f_equal. apply Hsame. split; [exact example_template_wf|].
  intros k s [[= <- <-]|[[= <- <-]|[]]]; simpl; split;
    try reflexivity; discriminate.
Defined.

(** What [from_dict] builds is normalized as far as names go: no variable
    name occurs twice, every variable is named after its key, and the
    names are those of the document's variables mapping. *)
Theorem from_dict_variables_named data self :
  PromptTemplate.from_dict data = Ok self ->
  Dict.wf (PromptTemplate.variables self) /\
  (forall k s, In (k, s) (PromptTemplate.variables self) -> VariableSpec.name s = k) /\
  (forall items,
     Raw.variables data = Some (Raw.VarsDict items) ->
     forall k, In k (Dict.keys (PromptTemplate.variables self)) <-> In k (Dict.keys items)) /\
  (Raw.variables data = None -> PromptTemplate.variables self = []).
Proof.
  intros Hp. split; [now apply from_dict_wf with (data := data)|].
  destruct (from_dict_variables _ _ Hp) as [items [Hitems Hvars]].
  split; [|split].
  - intros k s Hin. rewrite Hvars in Hin.
    apply (fold_set_in parse_variable) in Hin.
    destruct Hin as [[]|[x [_ ->]]]. now destruct x.
  - intros items' Hraw k. destruct Hitems as [Hi|[Hi _]]; [|congruence].
    assert (items' = items) by congruence. subst items'. rewrite Hvars.
    clear. change (@nil (string * VariableSpec.t)) with (@Dict.empty string VariableSpec.t).
    assert (Hgen : forall acc,
              In k (Dict.keys
                      (fold_left (fun acc '(k, x) => Dict.set k (parse_variable k x) acc)
                         items acc)) <->
              In k (Dict.keys acc) \/ In k (Dict.keys items)).
    { induction items as [|[k0 x0] items IH]; intros acc; simpl; [tauto|].
      rewrite IH, keys_set.
      destruct (Dict.contains k0 acc) eqn:Hc.
      - apply contains_iff in Hc. split; [intros [H|H]; [tauto | tauto]|].
        intros [H|[<-|H]]; tauto.
      - rewrite in_app_iff. simpl. tauto. }
    rewrite Hgen. simpl. tauto.
  - intros Hnone. destruct Hitems as [Hi|[_ ->]]; [congruence|].
    rewrite Hvars. reflexivity.
Qed.

Lemma from_dict_variables_named_witness :
  exists self,
    PromptTemplate.from_dict example_document = Ok self /\
    Dict.wf (PromptTemplate.variables self).
Proof.
  eexists. split; [reflexivity|].
  apply (proj1 (from_dict_variables_named example_document _ eq_refl)).
Defined.

(* ------------------------------------------------------------------ *)
(** * More on loading *)

(** Loading again, with the directory as it was, changes nothing: the
    second [load] ends as the first did and leaves the registry as the
    first left it. *)
Theorem load_twice w :
  load (snd (load w)) = (fst (load w), snd (load w)).
Proof.
  rewrite (load_eq (snd (load w))).
  rewrite load_keeps_disk, load_keeps_prompts_dir.
  rewrite (load_eq w).
  destruct (disk w) as [files|]; [|reflexivity].
  destruct (load_files (prompts_dir (self w)) (scan files) Dict.empty)
    as [[[]|e] ts]; reflexivity.
Qed.

Lemma lookup_store template (ts : index) n v :
  lookup n v (store template ts) =
  if String.eqb (PromptTemplate.name template) n
     && (PromptTemplate.version template =? v)
  then Some template
  else lookup n v ts.
Proof.
  destruct (String.eqb_spec (PromptTemplate.name template) n) as [<-|Hn]; simpl.
  - destruct (Z.eqb_spec (PromptTemplate.version template) v) as [<-|Hv].
    + apply lookup_store_same.
    + apply lookup_store_other. congruence.
  - apply lookup_store_other. congruence.
Qed.

Lemma lookup_load_files dir fs (ts : index) n v :
  Forall (fun f => ~ fails_to_parse f) fs ->
  lookup n v (snd (load_files dir fs ts)) =
  match last_entry n v fs with
  | Some template => Some template
  | None => lookup n v ts
  end.
Proof.
  revert ts. induction fs as [|f fs IH]; intros ts Hall; simpl; [reflexivity|].
  inversion Hall as [|? ? Hf Hall']; subst.
  destruct (parsed_template f) as [[template|]|e] eqn:Hp.
  - rewrite IH by assumption.
    destruct (last_entry n v fs); [reflexivity|]. rewrite lookup_store.
    now destruct (String.eqb (PromptTemplate.name template) n
                  && (PromptTemplate.version template =? v)).
  - rewrite IH by assumption. now destruct (last_entry n v fs).
  - exfalso. apply Hf. now exists e.
Qed.

Lemma load_ok_lookup w files :
  fst (load w) = Ok tt ->
  disk w = Some files ->
  _loaded (self (snd (load w))) = true /\
  forall n v,
    lookup n v (_templates (self (snd (load w)))) = last_entry n v (scan files).
Proof.
  intros Hok Hd. rewrite load_eq in *. rewrite Hd in *.
  destruct (load_files (prompts_dir (self w)) (scan files) Dict.empty)
    as [[[]|e] ts] eqn:Hl; simpl in *; [|discriminate].
  split; [reflexivity|]. intros n v.
  pose proof (load_files_ok_inv _ _ _ _ Hl) as Hall.
  pose proof (lookup_load_files (prompts_dir (self w)) (scan files)
                Dict.empty n v Hall) as Hlk.
  rewrite Hl in Hlk. simpl in Hlk. rewrite Hlk.
  now destruct (last_entry n v (scan files)).
Qed.

(** After a [load] that returns, the index is the directory and nothing
    else: the entry at a name and a version is the template of the last
    file, in scan order, that parses to that name and version (so a
    [.yml] file wins over every [.yaml] file), and there is no entry
    where no file does; a directory that does not exist gives the empty
    index.  The registry is marked loaded. *)
Theorem load_index_is_directory w :
  fst (load w) = Ok tt ->
  _loaded (self (snd (load w))) = true /\
  (disk w = None -> _templates (self (snd (load w))) = Dict.empty) /\
  (forall files,
     disk w = Some files ->
     forall n v,
       lookup n v (_templates (self (snd (load w)))) = last_entry n v (scan files)).
Proof.
  intros Hok. destruct (disk w) as [files|] eqn:Hd.
  - destruct (load_ok_lookup w files Hok Hd) as [Hl Hlk].
    split; [exact Hl|]. split; [discriminate|].
    intros files' [= <-]. exact Hlk.
  - rewrite load_eq, Hd. simpl.
    split; [reflexivity|]. split; [reflexivity | discriminate].
Qed.

Lemma load_index_is_directory_witness :
  lookup "a" 2 (_templates (self (snd (load scenario_world)))) =
  last_entry "a" 2 (scan [a_yaml; a_v2_yaml]) /\
  lookup "a" 3 (_templates (self (snd (load scenario_world)))) = None.
Proof.
  destruct (load_index_is_directory scenario_world eq_refl) as (_ & _ & Hlk).
  split.
  - apply (Hlk _ eq_refl).
  - rewrite (Hlk _ eq_refl). reflexivity.
Defined.

(** * The unloaded registry and a broken directory *)

Lemma load_fails w files :
  disk w = Some files ->
  Exists fails_to_parse (scan files) ->
  exists e ts,
    forall w',
      disk w' = Some files ->
      prompts_dir (self w') = prompts_dir (self w) ->
      load w' = (Raise e, set_templates ts w').
Proof.
  intros Hd Hex.
  destruct (first_failure _ Hex) as (good & bad & rest & Hscan & Hgood & [e He]).
  exists (load_error (prompts_dir (self w)) bad e),
         (snd (load_files (prompts_dir (self w)) good Dict.empty)).
  intros w' Hd' Hp'. rewrite load_eq, Hd', Hscan, Hp'.
  now rewrite (load_files_failure _ good bad rest Dict.empty e Hgood He).
Qed.

(** On a registry that is not loaded, over a directory with a document
    that fails to parse, [get] and [__contains__] raise the error of the
    implicit [load] whatever the name; the registry stays unloaded, so
    that the next call loads, and raises, again. *)
Theorem get_unloaded_broken_directory w files name version :
  _loaded (self w) = false ->
  disk w = Some files ->
  Exists fails_to_parse (scan files) ->
  exists e w',
    get name version w = (Raise e, w') /\
    __contains__ name w = (Raise e, w') /\
    _loaded (self w') = false /\
    disk w' = disk w /\
    get name version w' = (Raise e, w') /\
    __contains__ name w' = (Raise e, w').
Proof.
  intros Hl Hd Hex.
  destruct (load_fails w files Hd Hex) as (e & ts & Hfail).
  pose proof (Hfail w Hd eq_refl) as Hload.
  set (w' := set_templates ts w) in *.
  assert (Hl' : _loaded (self w') = false) by exact Hl.
  assert (Hd' : disk w' = Some files) by exact Hd.
  assert (Hload' : load w' = (Raise e, w')) by exact (Hfail w' Hd' eq_refl).
  assert (He : forall w0, _loaded (self w0) = false ->
                          _ensure_loaded w0 = load w0).
  { intros w0 H0. unfold _ensure_loaded, gets. simpl. now rewrite H0. }
  exists e, w'.
  rewrite !get_eq, !__contains___eq, !He by assumption.
  rewrite Hload, Hload'. repeat split; try reflexivity; assumption.
Qed.

Lemma get_unloaded_broken_directory_witness :
  exists e w',
    get "a" None (fresh (Some [a_yaml; b_yml])) = (Raise e, w') /\
    get "a" None w' = (Raise e, w').
Proof.
  destruct (get_unloaded_broken_directory (fresh (Some [a_yaml; b_yml]))
              [a_yaml; b_yml] "a" None eq_refl eq_refl)
    as (e & w' & Hg & _ & _ & _ & Hg' & _).
  - apply Exists_cons_tl, Exists_cons_hd.
    exists (YAMLError "mapping values are not allowed here"). reflexivity.
  - exists e, w'. split; assumption.
Defined.

Lemma get_result_ok name version (ts : index) :
  exists r, get_result name version ts = Ok r.
Proof.
  unfold get_result.
  destruct (Dict.get name ts) as [versions|] eqn:Hg; [|eauto].
  destruct version as [v|]; [eauto|].
  destruct (Dict.keys versions) as [|k ks] eqn:Hk; [eauto|].
  assert (Hne : versions <> []) by (intros ->; discriminate).
  destruct (get_result_latest name ts versions Hg Hne) as (m & t & Hr & _).
  unfold get_result in Hr. rewrite Hg, Hk in Hr. eexists. exact Hr.
Qed.

(** A [load] that fails on a registry already marked loaded leaves it
    marked loaded: [get] then answers from the partial index without
    raising.  A [reload] that fails leaves the registry unloaded. *)
Theorem failed_load_keeps_loaded_flag w files :
  disk w = Some files ->
  Exists fails_to_parse (scan files) ->
  (exists e, fst (reload w) = Raise e) /\
  _loaded (self (snd (reload w))) = false /\
  (_loaded (self w) = true ->
   (exists e, fst (load w) = Raise e) /\
   _loaded (self (snd (load w))) = true /\
   forall name version,
     exists r, get name version (snd (load w)) = (Ok r, snd (load w))).
Proof.
  intros Hd Hex. split; [|split].
  - rewrite reload_eq.
    destruct (load_fails (set_loaded false w) files Hd Hex) as (e & ts & Hfail).
    rewrite (Hfail (set_loaded false w) Hd eq_refl). now exists e.
  - rewrite reload_eq.
    destruct (load_fails (set_loaded false w) files Hd Hex) as (e & ts & Hfail).
    now rewrite (Hfail (set_loaded false w) Hd eq_refl).
  - intros Hl. destruct (load_fails w files Hd Hex) as (e & ts & Hfail).
    pose proof (Hfail w Hd eq_refl) as Hload.
    rewrite Hload. simpl. split; [now exists e|]. split; [exact Hl|].
    intros name version.
    rewrite get_eq, _ensure_loaded_loaded by exact Hl.
    destruct (get_result_ok name version (_templates (self (set_templates ts w))))
      as [r ->].
    now exists r.
Qed.

Lemma failed_load_keeps_loaded_flag_witness :
  _loaded (self (snd (load stale_world))) = true /\
  _loaded (self (snd (reload stale_world))) = false.
Proof.
  destruct (failed_load_keeps_loaded_flag stale_world [a_yaml; b_yml] eq_refl)
    as (_ & Hr & Hl).
  - apply Exists_cons_tl, Exists_cons_hd.
    exists (YAMLError "mapping values are not allowed here"). reflexivity.
  - split; [apply Hl; reflexivity | exact Hr].
Defined.

(* ------------------------------------------------------------------ *)
(** * Listing *)

Section InsertionSort.
Context {A : Type} (leb : A -> A -> bool).
Hypothesis leb_total : forall a b, leb a b = true \/ leb b a = true.

Lemma insert_by_perm x l : Permutation (insert_by leb x l) (x :: l).
Proof.
  induction l as [|y l IH]; simpl; [constructor; constructor|].
  destruct (leb x y); [apply Permutation_refl|].
  eapply perm_trans; [apply perm_skip, IH | apply perm_swap].
Qed.

Lemma insert_by_sorted x l : Sorted (le_of leb) l -> Sorted (le_of leb) (insert_by leb x l).
Proof.
  induction l as [|y l IH]; intros Hs; simpl.
  - repeat constructor.
  - destruct (leb x y) eqn:Hxy.
    + constructor; [assumption | constructor; exact Hxy].
    + apply Sorted_inv in Hs. destruct Hs as [Hs Hhd].
      constructor; [now apply IH|].
      destruct l as [|z l]; simpl.
      * constructor. destruct (leb_total x y); [congruence | assumption].
      * destruct (leb x z).
        -- constructor. destruct (leb_total x y); [congruence | assumption].
        -- constructor. now inversion Hhd.
Qed.

Lemma fold_insert_by_perm l : Permutation (fold_right (insert_by leb) [] l) l.
Proof.
  induction l as [|x l IH]; simpl; [constructor|].
  eapply perm_trans; [apply insert_by_perm | now constructor].
Qed.

Lemma fold_insert_by_sorted l : Sorted (le_of leb) (fold_right (insert_by leb) [] l).
Proof.
  induction l as [|x l IH]; simpl; [constructor | now apply insert_by_sorted].
Qed.

End InsertionSort.

Lemma insert_sorted_eq x l : insert_sorted x l = insert_by Z.leb x l.
Proof. induction l as [|y l IH]; simpl; [reflexivity | now rewrite IH]. Qed.

Lemma insert_sorted_str_eq x l : insert_sorted_str x l = insert_by String.leb x l.
Proof. induction l as [|y l IH]; simpl; [reflexivity | now rewrite IH]. Qed.

Lemma sorted_eq l : sorted l = fold_right (insert_by Z.leb) [] l.
Proof.
  unfold sorted. induction l as [|x l IH]; simpl; [reflexivity|].
  now rewrite IH, insert_sorted_eq.
Qed.

Lemma sorted_str_eq l : sorted_str l = fold_right (insert_by String.leb) [] l.
Proof.
  unfold sorted_str. induction l as [|x l IH]; simpl; [reflexivity|].
  now rewrite IH, insert_sorted_str_eq.
Qed.

Lemma Zleb_total a b : (a <=? b) = true \/ (b <=? a) = true.
Proof. destruct (Z.leb_spec a b); [now left | right; apply Z.leb_le; lia]. Qed.

Lemma sorted_perm l : Permutation (sorted l) l.
Proof. rewrite sorted_eq. apply fold_insert_by_perm. Qed.

Lemma sorted_le l : Sorted Z.le (sorted l).
Proof.
  rewrite sorted_eq.
  pose proof (fold_insert_by_sorted Z.leb Zleb_total l) as Hs.
  induction Hs as [|a l' Hs IH Hhd]; constructor; [assumption|].
  destruct Hhd as [|b l'' Hab]; constructor. now apply Z.leb_le.
Qed.

Lemma sorted_lt l : NoDup l -> Sorted Z.lt (sorted l).
Proof.
  intros Hnd.
  assert (Hnd' : NoDup (sorted l)).
  { eapply Permutation_NoDup; [apply Permutation_sym, sorted_perm | exact Hnd]. }
  pose proof (sorted_le l) as Hs.
  induction Hs as [|a l' Hs IH Hhd]; constructor.
  - apply IH. now inversion Hnd'.
  - destruct Hhd as [|b l'' Hab]; constructor.
    inversion Hnd' as [|? ? Hnotin _]; subst.
    assert (a <> b) by (intros ->; apply Hnotin; now left). lia.
Qed.

Lemma sorted_str_perm l : Permutation (sorted_str l) l.
Proof. rewrite sorted_str_eq. apply fold_insert_by_perm. Qed.


Lemma list_versions_eq name w :
  _loaded (self w) = true ->
  list_versions name w =
  (Ok (match Dict.get name (_templates (self w)) with
       | Some versions => sorted (Dict.keys versions)
       | None => []
       end), w).
Proof.
  intros Hl. unfold list_versions. cbn -[_ensure_loaded sorted].
  rewrite _ensure_loaded_loaded by exact Hl.
  unfold gets, lift, getitem, Dict.contains. cbn -[sorted].
  now destruct (Dict.get name (_templates (self w))).
Qed.





Lemma sorted_lt_last (l : list Z) m :
  Sorted Z.lt l -> In m l -> (forall v, In v l -> v <= m) ->
  exists l', l = (l' ++ [m])%list.
Proof.
  induction l as [|a l IH]; intros Hs Hin Hmax; [contradiction|].
  apply Sorted_inv in Hs. destruct Hs as [Hs Hhd].
  destruct l as [|b l].
  - destruct Hin as [->|[]]. now exists [].
  - assert (Hab : a < b) by now inversion Hhd.
    assert (Hin' : In m (b :: l)).
    { destruct Hin as [<-|Hin]; [|assumption].
      specialize (Hmax b (or_intror (or_introl eq_refl))). lia. }
    destruct (IH Hs Hin') as [l' Hl'].
    + intros v Hv. apply Hmax. now right.
    + exists (a :: l'). simpl. now rewrite Hl'.
Qed.

(** On a loaded registry the template that [get] returns without a
    version is the one stored under the last element of
    [list_versions]. *)
Theorem get_latest_is_last_version name w template :
  _loaded (self w) = true ->
  index_ok (_templates (self w)) ->
  get name None w = (Ok (Some template), w) ->
  exists earlier,
    list_versions name w =
      (Ok (earlier ++ [PromptTemplate.version template])%list, w) /\
    lookup name (PromptTemplate.version template) (_templates (self w)) = Some template.
Proof.
  intros Hl Hok Hget.
  rewrite get_eq, _ensure_loaded_loaded in Hget by exact Hl.
  injection Hget as Hres.
  destruct (Dict.get name (_templates (self w))) as [versions|] eqn:Hg.
  2: { unfold get_result in Hres. rewrite Hg in Hres. discriminate. }
  assert (Hne : versions <> []).
  { intros ->. unfold get_result in Hres. rewrite Hg in Hres. discriminate. }
  destruct (get_result_latest name _ versions Hg Hne) as (m & t & Hr & Hm & Hmin & Hmax).
  rewrite Hr in Hres. injection Hres as ->.
  destruct Hok as [_ Hall].
  destruct (Hall _ _ (get_in _ _ _ Hg)) as (Hwfv & _ & Hent).
  destruct (Hent _ _ (get_in _ _ _ Hm)) as [_ Hv]. subst m.
  assert (Hlk : lookup name (PromptTemplate.version template) (_templates (self w))
                = Some template).
  { unfold lookup. now rewrite Hg. }
  destruct (sorted_lt_last (sorted (Dict.keys versions))
              (PromptTemplate.version template)) as [earlier Hearlier].
  - now apply sorted_lt.
  - eapply Permutation_in; [apply Permutation_sym, sorted_perm | exact Hmin].
  - intros v Hv. apply Hmax. eapply Permutation_in; [apply sorted_perm | exact Hv].
  - exists earlier. split; [|exact Hlk].
    rewrite list_versions_eq, Hg by exact Hl. now rewrite Hearlier.
Qed.

Lemma get_latest_is_last_version_witness :
  exists template earlier,
    get "x" None versions_world = (Ok (Some template), versions_world) /\
    list_versions "x" versions_world =
      (Ok (earlier ++ [PromptTemplate.version template])%list, versions_world).
Proof.
  assert (Hok : index_ok (_templates (self versions_world))) by apply load_index_ok.
  eexists.
  destruct (get_latest_is_last_version "x" versions_world _ eq_refl Hok eq_refl)
    as (earlier & Hlv & _).
  exists earlier. split; [reflexivity | exact Hlv].
Defined.

Lemma list_prompts_eq w :
  _loaded (self w) = true ->
  list_prompts w = (Ok (sorted_str (Dict.keys (_templates (self w)))), w).
Proof.
  intros Hl. unfold list_prompts. cbn -[_ensure_loaded sorted_str].
  now rewrite _ensure_loaded_loaded by exact Hl.
Qed.



(* ------------------------------------------------------------------ *)
(** * All templates *)






(* ------------------------------------------------------------------ *)
(** * Validating all templates *)

Section ValidateAll.
Context {E : Engine}.

Lemma validate_all_eq w :
  _loaded (self w) = true ->
  validate_all w = (fold_result validate_all_step (_templates (self w)) Dict.empty, w).
Proof.
  intros Hl. unfold validate_all. cbn -[_ensure_loaded fold_result].
  rewrite _ensure_loaded_loaded by exact Hl. reflexivity.
Qed.

Lemma validate_all_entries name versions errors :
  (forall v t, In (v, t) versions -> syntax_errors_only t) ->
  exists errors',
    fold_result (validate_all_entry name) versions errors = Ok errors' /\
    grows
      (fun key errs =>
         errs <> [] /\
         exists v t, In (v, t) versions /\ key = name ++ ":v" ++ str_int v
                     /\ PromptTemplate.validate t = Ok errs)
      (forall v t, In (v, t) versions -> PromptTemplate.validate t = Ok [])
      errors errors'.
Proof.
  revert errors. induction versions as [|[v t] versions IH]; intros errors Hsyn.
  - exists errors. split; [reflexivity|]. unfold grows. repeat split; auto.
    intros Hn. exfalso. apply Hn. intros v t [].
  - cbn [fold_result]. unfold validate_all_entry at 1.
    rewrite (validate_eq t) by (apply (Hsyn v); now left).
    set (msgs := (syntax_messages t ++ variable_messages t ++ version_messages t)%list).
    assert (Hval : PromptTemplate.validate t = Ok msgs)
      by (apply validate_eq, (Hsyn v); now left).
    assert (Hsyn' : forall v' t', In (v', t') versions -> syntax_errors_only t')
      by (intros; eapply Hsyn; right; eassumption).
    destruct msgs as [|m ms] eqn:Hm.
    + destruct (IH errors Hsyn') as (errors' & Hfold & Ha & Hb & Hc & Hd).
      exists errors'. split; [exact Hfold|]. unfold grows. repeat split.
      * intros key errs Hin. destruct (Ha key errs Hin) as [?|(Hne & v' & t' & Hi & Hk & Hv)];
          [now left|]. right. split; [exact Hne|]. exists v', t'. split; [now right | auto].
      * exact Hb.
      * intros Hclean. apply Hc. intros v' t' Hi. apply (Hclean v' t'). now right.
      * intros Hn. apply Hd. intros Hclean. apply Hn.
        intros v' t' [[= <- <-]|Hi]; [exact Hval | now apply (Hclean v' t')].
    + destruct (IH (Dict.set (name ++ ":v" ++ str_int v) (m :: ms) errors) Hsyn')
        as (errors' & Hfold & Ha & Hb & Hc & Hd).
      exists errors'. split; [exact Hfold|]. unfold grows. repeat split.
      * intros key errs Hin.
        destruct (Ha key errs Hin) as [Hs|(Hne & v' & t' & Hi & Hk & Hv)].
        -- apply in_set in Hs. destruct Hs as [[-> ->]|Hs]; [|now left].
           right. split; [discriminate|]. exists v, t. split; [now left | auto].
        -- right. split; [exact Hne|]. exists v', t'. split; [now right | auto].
      * intros _. apply Hb, set_nonempty.
      * intros Hclean. specialize (Hclean v t (or_introl eq_refl)). congruence.
      * intros _. apply Hb, set_nonempty.
Qed.

Lemma validate_all_names (ts : index) errors :
  (forall n v t, stored ts n v t -> syntax_errors_only t) ->
  exists errors',
    fold_result validate_all_step ts errors = Ok errors' /\
    grows
      (fun key errs =>
         errs <> [] /\
         exists n v t, stored ts n v t /\ key = n ++ ":v" ++ str_int v
                       /\ PromptTemplate.validate t = Ok errs)
      (forall n v t, stored ts n v t -> PromptTemplate.validate t = Ok [])
      errors errors'.
Proof.
  revert errors. induction ts as [|[name versions] ts IH]; intros errors Hsyn.
  - exists errors. split; [reflexivity|]. unfold grows. repeat split; auto.
    intros Hn. exfalso. apply Hn. intros n v t [vs [[] _]].
  - cbn [fold_result]. unfold validate_all_step at 1.
    destruct (validate_all_entries name versions errors)
      as (errors1 & Hfold1 & Ha1 & Hb1 & Hc1 & Hd1).
    { intros v t Hi. apply (Hsyn name v). exists versions. split; [now left | exact Hi]. }
    rewrite Hfold1.
    destruct (IH errors1) as (errors' & Hfold & Ha & Hb & Hc & Hd).
    { intros n v t [vs [Hi Hj]]. apply (Hsyn n v). exists vs. split; [now right | exact Hj]. }
    exists errors'. split; [exact Hfold|]. unfold grows. repeat split.
    + intros key errs Hin.
      destruct (Ha key errs Hin) as [H1|(Hne & n & v & t & [vs [Hi Hj]] & Hk & Hv)].
      * destruct (Ha1 key errs H1) as [?|(Hne & v & t & Hi & Hk & Hv)]; [now left|].
        right. split; [exact Hne|]. exists name, v, t.
        split; [exists versions; split; [now left | exact Hi] | auto].
      * right. split; [exact Hne|]. exists n, v, t.
        split; [exists vs; split; [now right | exact Hj] | auto].
    + intros Hne. now apply Hb, Hb1.
    + intros Hclean. rewrite Hc, Hc1; [reflexivity | |].
      * intros v t Hi. apply (Hclean name v). exists versions. split; [now left | exact Hi].
      * intros n v t [vs [Hi Hj]]. apply (Hclean n v). exists vs. split; [now right | exact Hj].
    + intros Hn.
      destruct errors1 as [|x xs]; [|apply Hb; discriminate].
      apply Hd. intros Hclean. apply Hn. intros n v t [vs [[[= <- <-]|Hi] Hj]].
      * destruct (PromptTemplate.validate t) as [[|m ms]|e] eqn:Hv; [reflexivity| |].
        -- exfalso. apply Hd1; [|reflexivity].
           intros Hc'. rewrite (Hc' v t Hj) in Hv. discriminate.
        -- exfalso. apply Hd1; [|reflexivity].
           intros Hc'. rewrite (Hc' v t Hj) in Hv. discriminate.
      * apply (Hclean n v). exists vs. split; assumption.
Qed.

(** On a loaded registry whose templates make [from_string] fail with
    syntax errors only, [validate_all] does not raise; every list of
    messages it returns is non-empty and is what [validate] returns for a
    stored template, under the key built from that template's name and
    version; and it returns the empty dictionary exactly when [validate]
    finds nothing in any stored template. *)
Theorem validate_all_only_failures w :
  _loaded (self w) = true ->
  (forall n v t, stored (_templates (self w)) n v t -> syntax_errors_only t) ->
  exists errors,
    validate_all w = (Ok errors, w) /\
    (forall key errs,
       In (key, errs) errors ->
       errs <> [] /\
       exists n v t,
         stored (_templates (self w)) n v t /\
         key = n ++ ":v" ++ str_int v /\
         PromptTemplate.validate t = Ok errs) /\
    (errors = [] <->
     forall n v t, stored (_templates (self w)) n v t ->
                   PromptTemplate.validate t = Ok []).
Proof.
  intros Hl Hsyn.
  destruct (validate_all_names (_templates (self w)) Dict.empty Hsyn)
    as (errors & Hfold & Ha & _ & Hc & Hd).
  exists errors. split; [now rewrite validate_all_eq, Hfold by exact Hl|]. split.
  - intros key errs Hin. destruct (Ha key errs Hin) as [[]|H]. exact H.
  - split.
    + intros Hnil n v t Hst.
      destruct (PromptTemplate.validate t) as [[|m ms]|e] eqn:Hv; [reflexivity| |];
        exfalso; apply Hd; [|exact Hnil| |exact Hnil];
        intros Hclean; rewrite (Hclean n v t Hst) in Hv; discriminate.
    + intros Hclean. now apply Hc.
Qed.

End ValidateAll.

Lemma interpolation_engine_syntax_only self :
  @syntax_errors_only interpolation_engine self.
Proof.
  intros e He. simpl in He.
  destruct (Interpolation.lex (PromptTemplate.template self)); [discriminate|].
  injection He as <-. eauto.
Qed.

Lemma validate_all_only_failures_witness :
  exists errors,
    @validate_all interpolation_engine mixed_world = (Ok errors, mixed_world) /\
    errors = [("zero:v0", ["Version must be a positive integer, got: 0"])].
Proof.
  destruct (@validate_all_only_failures interpolation_engine mixed_world eq_refl)
    as (errors & Hv & _ & _).
  - intros n v t _. apply interpolation_engine_syntax_only.
  - exists errors. split; [exact Hv|].
    assert (Hc : @validate_all interpolation_engine mixed_world =
                 (Ok [("zero:v0", ["Version must be a positive integer, got: 0"])],
                  mixed_world)) by reflexivity.
    rewrite Hc in Hv. now injection Hv as <-.
Defined.

(* ------------------------------------------------------------------ *)
(** * Initializing the prompts directory *)

Lemma write_file_new name c files :
  Disk.exists_file name (Some files) = false ->
  Disk.write_file name c files =
  (files ++ [{| Disk.subdir := []; Disk.filename := name; Disk.contents := c |}])%list.
Proof.
  simpl. induction files as [|f files IH]; simpl; [reflexivity|].
  intros Hex. apply orb_false_iff in Hex. destruct Hex as [Hf Hex].
  rewrite Hf. now rewrite IH.
Qed.

Lemma exists_file_write name c d :
  Disk.exists_file name (Disk.write name c d) = true.
Proof.
  assert (Hw : forall files,
            Disk.exists_file name (Some (Disk.write_file name c files)) = true).
  { induction files as [|f files IH]; simpl.
    - now rewrite String.eqb_refl.
    - destruct (match Disk.subdir f with
                | [] => String.eqb (Disk.filename f) name
                | _ => false
                end) eqn:Hf; simpl.
      + now rewrite String.eqb_refl.
      + rewrite Hf. exact IH. }
  destruct d as [files|]; apply Hw.
Qed.

Lemma init_prompts_dir_eq w :
  init_prompts_dir w =
  (Ok (prompts_dir (self w)),
   set_disk
     (if Disk.exists_file "example.yaml" (Disk.mkdir (disk w))
      then Disk.mkdir (disk w)
      else Disk.write "example.yaml" (Disk.Parsed (Raw.PDict example_data))
             (Disk.mkdir (disk w)))
     w).
Proof.
  unfold init_prompts_dir, modify, gets. cbn -[Disk.exists_file Disk.write Disk.mkdir].
  destruct (Disk.exists_file "example.yaml" (Disk.mkdir (disk w))); reflexivity.
Qed.

(** [init_prompts_dir] returns the prompts directory and does not touch
    the registry object (it does not reload).  An [example.yaml] that is
    there is left as it is, together with the rest of the directory;
    otherwise the example document is added and nothing else changes.
    Calling it again changes nothing more. *)
Theorem init_prompts_dir_idempotent w :
  let r := init_prompts_dir w in
  fst r = Ok (prompts_dir (self w)) /\
  self (snd r) = self w /\
  (Disk.exists_file "example.yaml" (disk w) = true -> snd r = w) /\
  (Disk.exists_file "example.yaml" (disk w) = false ->
   disk (snd r) = Some (files_of (disk w) ++ [example_yaml])%list) /\
  Disk.exists_file "example.yaml" (disk (snd r)) = true /\
  init_prompts_dir (snd r) = r.
Proof.
  cbv zeta. rewrite init_prompts_dir_eq. simpl fst. simpl snd.
  assert (Hmk : Disk.exists_file "example.yaml" (Disk.mkdir (disk w))
                = Disk.exists_file "example.yaml" (disk w))
    by now destruct (disk w).
  rewrite Hmk.
  split; [reflexivity|]. split; [now destruct (Disk.exists_file _ _)|].
  split; [|split; [|split]].
  - intros Hex. rewrite Hex. destruct w as [[files|] s]; [reflexivity | discriminate].
  - intros Hex. rewrite Hex. rewrite write_mkdir. simpl. f_equal.
    apply write_file_new. now destruct (disk w).
  - destruct (Disk.exists_file "example.yaml" (disk w)) eqn:Hex; simpl.
    + now rewrite Hmk.
    + apply exists_file_write.
  - rewrite init_prompts_dir_eq.
    destruct (Disk.exists_file "example.yaml" (disk w)) eqn:Hex.
    + destruct w as [[files|] s]; [|discriminate]. simpl in *. now rewrite Hex.
    + simpl. rewrite write_mkdir.
      assert (Hex' : Disk.exists_file "example.yaml"
                       (Some (Disk.write_file "example.yaml"
                                (Disk.Parsed (Raw.PDict example_data))
                                (files_of (disk w)))) = true).
      { rewrite <- write_mkdir. apply exists_file_write. }
      simpl Disk.mkdir. rewrite Hex'. reflexivity.
Qed.

Lemma init_prompts_dir_idempotent_witness :
  disk (snd (init_prompts_dir (fresh None))) = Some [example_yaml] /\
  init_prompts_dir (snd (init_prompts_dir (fresh None))) = init_prompts_dir (fresh None).
Proof.
  destruct (init_prompts_dir_idempotent (fresh None)) as (_ & _ & _ & Hnew & _ & Hidem).
  split; [apply Hnew; reflexivity | exact Hidem].
Defined.

(* ------------------------------------------------------------------ *)
(** * Creating a prompt and finding it again *)





Lemma append_assoc (a b c : string) : (a ++ b) ++ c = a ++ b ++ c.
Proof. induction a as [|x a IH]; simpl; [reflexivity | now rewrite IH]. Qed.





Lemma last_entry_in n v fs t :
  last_entry n v fs = Some t ->
  exists f, In f fs /\ parsed_template f = Ok (Some t) /\
            PromptTemplate.name t = n /\ PromptTemplate.version t = v.
Proof.
  induction fs as [|f fs IH]; simpl; [discriminate|].
  destruct (last_entry n v fs) as [t'|].
  - intros [= ->]. destruct (IH eq_refl) as (f' & Hin & H). exists f'. split; [now right | exact H].
  - destruct (parsed_template f) as [[t'|]|e] eqn:Hp; try discriminate.
    destruct (String.eqb_spec (PromptTemplate.name t') n) as [Hn|]; [|discriminate].
    destruct (Z.eqb_spec (PromptTemplate.version t') v) as [Hv|]; [|discriminate].
    simpl. intros [= ->]. exists f. split; [now left|]. repeat split; auto.
Qed.

Lemma last_entry_unique n v fs f t :
  In f fs ->
  parsed_template f = Ok (Some t) ->
  PromptTemplate.name t = n ->
  PromptTemplate.version t = v ->
  (forall f' t', In f' fs -> parsed_template f' = Ok (Some t') ->
                 PromptTemplate.name t' = n -> PromptTemplate.version t' = v ->
                 t' = t) ->
  last_entry n v fs = Some t.
Proof.
  intros Hin Hp Hn Hv Huniq.
  destruct (last_entry n v fs) as [t'|] eqn:Hl.
  - destruct (last_entry_in _ _ _ _ Hl) as (f' & Hin' & Hp' & Hn' & Hv').
    f_equal. now apply (Huniq f' t').
  - exfalso. clear Huniq. induction fs as [|f0 fs IH]; [contradiction|].
    simpl in Hl. destruct (last_entry n v fs) as [t'|]; [discriminate|].
    destruct Hin as [->|Hin]; [|now apply IH].
    rewrite Hp in Hl. apply String.eqb_eq in Hn. apply Z.eqb_eq in Hv.
    rewrite Hn, Hv in Hl. discriminate.
Qed.

Lemma get_result_version name v (ts : index) :
  get_result name (Some v) ts = Ok (lookup name v ts).
Proof. unfold get_result, lookup. now destruct (Dict.get name ts). Qed.


Lemma scan_iff f files :
  In f (scan files) <->
  In f files /\
  (Disk.ends_with ".yaml" (Disk.filename f) = true
   \/ Disk.ends_with ".yml" (Disk.filename f) = true).
Proof.
  unfold scan, Disk.glob. rewrite in_app_iff, !filter_In. tauto.
Qed.




(* ------------------------------------------------------------------ *)
(** * The command line: reading [--var] options *)

Lemma list_ascii_append (x y : string) :
  list_ascii_of_string (x ++ y)
  = (list_ascii_of_string x ++ list_ascii_of_string y)%list.
Proof. induction x as [|a x IH]; simpl; [reflexivity | now rewrite IH]. Qed.

(** [split_once] cuts at the first separator: it returns [(before, rest)]
    exactly when the string is [before], the separator, [rest], with no
    separator in [before]; and it returns [None] exactly when the
    separator does not occur. *)
Lemma split_once_spec sep s :
  (forall before rest,
     Cli.split_once sep s = Some (before, rest) <->
     s = before ++ String sep rest /\ ~ occurs sep before) /\
  (Cli.split_once sep s = None <-> ~ occurs sep s).
Proof.
  unfold occurs. induction s as [|c s [IHsome IHnone]]; simpl.
  - split.
    + intros before rest. split; [discriminate|].
      intros [H _]. destruct before; discriminate.
    + tauto.
  - destruct (Ascii.eqb_spec c sep) as [->|Hne].
    + split.
      * intros before rest. split.
        -- intros [= <- <-]. split; [reflexivity | simpl; tauto].
        -- intros [Heq Hno]. destruct before as [|b before]; simpl in *.
           ++ now injection Heq as ->.
           ++ injection Heq as <- _. exfalso. apply Hno. now left.
      * split; [discriminate|]. intros Hno. exfalso. apply Hno. now left.
    + split.
      * intros before rest. split.
        -- destruct (Cli.split_once sep s) as [[b r]|] eqn:Hs; [|discriminate].
           intros [= <- <-]. destruct (proj1 (IHsome b r) eq_refl) as [-> Hno].
           split; [reflexivity|]. simpl. intros [?|?]; [congruence | contradiction].
        -- intros [Heq Hno]. destruct before as [|b before]; simpl in *.
           ++ injection Heq as -> _. congruence.
           ++ injection Heq as <- ->.
              rewrite (proj2 (IHsome before rest)); [reflexivity|].
              split; [reflexivity | tauto].
      * destruct (Cli.split_once sep s) as [[b r]|] eqn:Hs.
        -- split; [discriminate|]. intros Hno. exfalso.
           destruct (proj1 (IHsome b r) eq_refl) as [-> _].
           apply Hno. right. rewrite list_ascii_append. simpl.
           apply in_or_app. right. now left.
        -- split; [intros _|reflexivity].
           intros [?|Hin]; [congruence|]. now apply (proj1 IHnone).
Qed.

Lemma split_once_append sep before rest :
  ~ occurs sep before ->
  Cli.split_once sep (before ++ String sep rest) = Some (before, rest).
Proof.
  intros Hno. apply (proj1 (split_once_spec sep _)). now split.
Qed.

Lemma occurs_append c a b : occurs c (a ++ b) <-> occurs c a \/ occurs c b.
Proof.
  unfold occurs. induction a as [|x a IH]; simpl; [tauto|]. rewrite IH. tauto.
Qed.

Lemma strip_last_append c n :
  Cli.strip_last c (n ++ String c EmptyString) = Some n.
Proof.
  induction n as [|a n IH]; simpl.
  - now rewrite Ascii.eqb_refl.
  - rewrite IH. destruct (n ++ String c EmptyString) eqn:Hn; [|reflexivity].
    destruct n; discriminate.
Qed.

Lemma strip_last_other c c' n :
  c <> c' -> Cli.strip_last c (n ++ String c' EmptyString) = None.
Proof.
  intros Hne. induction n as [|a n IH]; simpl.
  - apply Ascii.eqb_neq in Hne. rewrite Ascii.eqb_sym. now rewrite Hne.
  - rewrite IH. destruct (n ++ String c' EmptyString) eqn:Hn; [|reflexivity].
    destruct n; discriminate.
Qed.

(** How [new] reads a [--var] option: a name without colon, followed by
    [!] or [?] or neither, then optionally a colon and a description
    (which may itself contain colons).  [?] makes the variable optional,
    [!] and no marker make it required; one marker is removed, and the
    description is what follows the first colon. *)
Theorem parse_new_var_spec name description :
  ~ occurs ":"%char name ->
  Cli.parse_new_var (name ++ "!:" ++ description) = (name, true, description) /\
  Cli.parse_new_var (name ++ "?:" ++ description) = (name, false, description) /\
  Cli.parse_new_var (name ++ "!") = (name, true, "") /\
  Cli.parse_new_var (name ++ "?") = (name, false, "") /\
  (Cli.strip_last "!"%char name = None ->
   Cli.strip_last "?"%char name = None ->
   Cli.parse_new_var (name ++ ":" ++ description) = (name, true, description) /\
   Cli.parse_new_var name = (name, true, "")).
Proof.
  intros Hno.
  assert (Hbang : ~ occurs ":"%char (name ++ "!")).
  { rewrite occurs_append. unfold occurs at 2. simpl.
    intros [?|[H|[]]]; [contradiction | discriminate H]. }
  assert (Hquest : ~ occurs ":"%char (name ++ "?")).
  { rewrite occurs_append. unfold occurs at 2. simpl.
    intros [?|[H|[]]]; [contradiction | discriminate H]. }
  assert (Hnone : forall s, ~ occurs ":"%char s -> Cli.split_once ":"%char s = None).
  { intros s Hs. now apply (proj2 (split_once_spec ":"%char s)). }
  unfold Cli.parse_new_var. repeat split.
  - change (name ++ "!:" ++ description)
      with (name ++ String "!"%char (String ":"%char description)).
    replace (name ++ String "!"%char (String ":"%char description))
      with ((name ++ "!") ++ String ":"%char description)
      by (now rewrite append_assoc).
    rewrite split_once_append by exact Hbang. now rewrite strip_last_append.
  - change (name ++ "?:" ++ description)
      with (name ++ String "?"%char (String ":"%char description)).
    replace (name ++ String "?"%char (String ":"%char description))
      with ((name ++ "?") ++ String ":"%char description)
      by (now rewrite append_assoc).
    rewrite split_once_append by exact Hquest.
    rewrite strip_last_other by discriminate. now rewrite strip_last_append.
  - rewrite Hnone by exact Hbang. now rewrite strip_last_append.
  - rewrite Hnone by exact Hquest.
    rewrite strip_last_other by discriminate. now rewrite strip_last_append.
  - change (name ++ ":" ++ description) with (name ++ String ":"%char description).
    rewrite split_once_append by exact Hno. now rewrite H, H0.
  - rewrite Hnone by exact Hno. now rewrite H, H0.
Qed.

Lemma parse_new_var_spec_witness :
  Cli.parse_new_var "audience?:Who reads: the text" =
  ("audience", false, "Who reads: the text").
Proof.
  apply (proj1 (proj2 (parse_new_var_spec "audience" "Who reads: the text"
                         ltac:(unfold occurs; simpl; intuition discriminate)))).
Defined.

(* ------------------------------------------------------------------ *)
(** * The command line: [render] *)

Lemma parsed_template_wf f t :
  parsed_template f = Ok (Some t) -> Dict.wf (PromptTemplate.variables t).
Proof.
  unfold parsed_template. destruct (Disk.safe_load f) as [[|d|e]|e]; simpl; try discriminate.
  destruct (PromptTemplate.from_dict d) as [t0|e] eqn:Hd; simpl; [|discriminate].
  apply from_dict_wf in Hd.
  destruct (String.eqb (PromptTemplate.name t0) "unnamed"); intros [= <-]; exact Hd.
Qed.

Lemma load_ok_state w w' :
  load w = (Ok tt, w') -> _loaded (self w') = true /\ disk w' = disk w.
Proof.
  intros Hl. pose proof (load_keeps_disk w) as Hd. rewrite Hl in Hd. simpl in Hd.
  split; [|exact Hd]. rewrite load_eq in Hl.
  destruct (disk w) as [files|].
  - destruct (load_files (prompts_dir (self w)) (scan files) Dict.empty)
      as [[[]|e] ts]; [|discriminate]. now injection Hl as <-.
  - now injection Hl as <-.
Qed.

Lemma loaded_templates_wf w w' n v t :
  load w = (Ok tt, w') ->
  lookup n v (_templates (self w')) = Some t ->
  Dict.wf (PromptTemplate.variables t).
Proof.
  intros Hl Hlk.
  assert (Hok : fst (load w) = Ok tt) by now rewrite Hl.
  assert (Hw : w' = snd (load w)) by now rewrite Hl.
  destruct (disk w) as [files|] eqn:Hd.
  - destruct (load_ok_lookup w files Hok Hd) as [_ Hlast].
    rewrite Hw, Hlast in Hlk.
    destruct (last_entry_in _ _ _ _ Hlk) as (f & _ & Hp & _).
    now apply parsed_template_wf with (f := f).
  - rewrite load_eq, Hd in Hl. injection Hl as <-. discriminate.
Qed.

Lemma get_result_lookup name version (ts : index) t :
  get_result name version ts = Ok (Some t) ->
  exists v, lookup name v ts = Some t.
Proof.
  unfold get_result, lookup.
  destruct (Dict.get name ts) as [versions|]; [|discriminate].
  destruct version as [v|].
  - intros [= H]. now exists v.
  - destruct (Dict.keys versions) as [|k ks]; [discriminate|].
    destruct (Dict.get (py_max k ks) versions) as [t'|] eqn:Hg; [|discriminate].
    intros [= <-]. now exists (py_max k ks).
Qed.

Lemma parse_vars_wf var acc variables :
  Cli.parse_vars var acc = inr variables -> Dict.wf acc -> Dict.wf variables.
Proof.
  revert acc. induction var as [|v var IH]; intros acc; simpl.
  - now intros [= <-].
  - destruct (Cli.split_once "="%char v) as [[key value]|]; [|discriminate].
    intros Hp Hwf. apply (IH _ Hp). now apply set_wf.
Qed.

Lemma missing_required_reported t variables :
  filter (fun v => negb (Dict.contains v variables))
    (PromptTemplate.get_required_variables t) <> [] ->
  exists msg, In msg (PromptTemplate.validate_inputs t variables).
Proof.
  intros Hne.
  destruct (filter (fun v => negb (Dict.contains v variables))
              (PromptTemplate.get_required_variables t)) as [|k missing] eqn:Hf;
    [contradiction|].
  assert (Hin : In k (filter (fun v => negb (Dict.contains v variables))
                        (PromptTemplate.get_required_variables t)))
    by (rewrite Hf; now left).
  apply filter_In in Hin. destruct Hin as [Hreq Hc].
  unfold PromptTemplate.get_required_variables in Hreq.
  apply in_map_iff in Hreq. destruct Hreq as [[k' s] [<- Hs]].
  apply filter_In in Hs. destruct Hs as [Hs Hr].
  eexists. apply missing_reported with (s := s); [exact Hs | exact Hr|].
  now apply negb_true_iff.
Qed.

Lemma supplied_no_missing t variables :
  supplies_required t variables ->
  filter (fun v => negb (Dict.contains v variables))
    (PromptTemplate.get_required_variables t) = [].
Proof.
  intros Hs.
  destruct (filter (fun v => negb (Dict.contains v variables))
              (PromptTemplate.get_required_variables t)) as [|k missing] eqn:Hf;
    [reflexivity|].
  assert (Hin : In k (filter (fun v => negb (Dict.contains v variables))
                        (PromptTemplate.get_required_variables t)))
    by (rewrite Hf; now left).
  apply filter_In in Hin. destruct Hin as [Hreq Hc].
  unfold PromptTemplate.get_required_variables in Hreq.
  apply in_map_iff in Hreq. destruct Hreq as [[k' s] [<- Hin]].
  apply filter_In in Hin. destruct Hin as [Hin Hr].
  simpl in Hc. rewrite (Hs _ _ Hin Hr) in Hc. discriminate.
Qed.

Section CliRender.
Context {E : Engine}.

Lemma registry_render_fresh dir d name version variables :
  plain_keywords variables ->
  PromptRegistry.render name (Passed version) variables (Cli.registry dir d) =
  match load (Cli.registry dir d) with
  | (Ok _, w) =>
      match get_result name version (_templates (self w)) with
      | Ok (Some template) => (PromptTemplate.render template variables, w)
      | Ok None => (Raise (ValueError ("Template '" ++ name ++ "' not found")), w)
      | Raise e => (Raise e, w)
      end
  | (Raise e, w) => (Raise e, w)
  end.
Proof.
  intros Hplain. unfold PromptRegistry.render.
  rewrite (plain_keywords_not_refused _ _ Hplain).
  unfold render_found. cbn -[get PromptTemplate.render load].
  rewrite get_eq.
  assert (He : _ensure_loaded (Cli.registry dir d) = load (Cli.registry dir d))
    by reflexivity.
  rewrite He.
  destruct (load (Cli.registry dir d)) as [[[]|e] w]; [|reflexivity].
  destruct (get_result name version (_templates (self w))) as [[t|]|e]; reflexivity.
Qed.

(** The [render] command never changes the prompts directory.  When its
    [--var] options all have the form [key=value] and none has the key
    [self], [name] or [version], it prints the rendered panel and returns
    exactly when [PromptRegistry.render], called with the name, the
    version and the options as keywords on a registry opened on the same
    directory, returns the text; the panel then shows that text. *)
Theorem cli_render_matches_registry dir d name version var :
  Cli.disk_after (Cli.render dir d name version var) = d /\
  forall variables,
    Cli.parse_vars var Dict.empty = inr variables ->
    plain_keywords variables ->
    forall text,
      fst (PromptRegistry.render name (Passed version) variables (Cli.registry dir d))
        = Ok text <->
      Cli.outcome (Cli.render dir d name version var) = Cli.Returned /\
      exists title,
        Cli.printed (Cli.render dir d name version var) = [Cli.PrintPanel text title].
Proof.
  unfold Cli.render.
  destruct (load (Cli.registry dir d)) as [[[]|e] w] eqn:Hload.
  - destruct (load_ok_state _ _ Hload) as [Hl Hd]. simpl in Hd.
    rewrite get_eq, _ensure_loaded_loaded by exact Hl.
    split.
    + destruct (get_result name version (_templates (self w))) as [[t|]|e'];
        try exact Hd.
      destruct (Cli.parse_vars var Dict.empty) as [v|variables]; [exact Hd|].
      destruct (filter _ _); [|exact Hd].
      destruct (Cli.call_render t variables) as [text|[]]; exact Hd.
    + intros variables Hparse Hplain text.
      assert (Hself : Dict.contains "self" variables = false)
        by (apply Hplain; now left).
      rewrite registry_render_fresh, Hload by exact Hplain.
      destruct (get_result name version (_templates (self w))) as [[t|]|e'] eqn:Hg;
        simpl.
      2: { split; [discriminate | intros [H _]; discriminate H]. }
      2: { split; [discriminate | intros [H _]; discriminate H]. }
      rewrite Hparse.
      assert (Hwft : Dict.wf (PromptTemplate.variables t)).
      { destruct (get_result_lookup _ _ _ _ Hg) as [v Hlk].
        eapply loaded_templates_wf; eassumption. }
      assert (Hwfv : Dict.wf variables).
      { apply (parse_vars_wf _ _ _ Hparse). constructor. }
      destruct (filter (fun v => negb (Dict.contains v variables))
                  (PromptTemplate.get_required_variables t)) as [|k missing] eqn:Hmiss.
      * unfold Cli.call_render. rewrite Hself.
        destruct (PromptTemplate.render t variables) as [text'|e''] eqn:Hr; simpl.
        -- split.
           ++ intros [= ->]. split; [reflexivity | eauto].
           ++ intros [_ [title H2]]. now injection H2 as ->.
        -- split; [discriminate|]. destruct e''; intros [H1 _]; discriminate H1.
      * destruct (missing_required_reported t variables) as [msg Hmsg];
          [rewrite Hmiss; discriminate|].
        rewrite (render_invalid t variables msg Hwft Hwfv Hmsg). simpl.
        split; [discriminate | intros [H _]; discriminate H].
  - pose proof (load_keeps_disk (Cli.registry dir d)) as Hd. rewrite Hload in Hd.
    simpl in Hd. split.
    + destruct e; exact Hd.
    + intros variables _ Hplain text.
      rewrite registry_render_fresh, Hload by exact Hplain. simpl.
      split; [discriminate|]. destruct e; intros [H _]; discriminate H.
Qed.

End CliRender.

Lemma cli_render_matches_registry_witness :
  Cli.outcome (@Cli.render interpolation_engine "prompts" (Some [a_yaml; a_v2_yaml])
                 "a" (Some 1) ["x=yo"]) = Cli.Returned /\
  exists title,
    Cli.printed (@Cli.render interpolation_engine "prompts" (Some [a_yaml; a_v2_yaml])
                   "a" (Some 1) ["x=yo"]) = [Cli.PrintPanel "Hi yo" title].
Proof.
  assert (Hx : plain_keywords [("x", VStr "yo")])
    by (intros k [<-|[<-|[<-|[]]]]; reflexivity).
  apply (proj2 (@cli_render_matches_registry interpolation_engine "prompts"
                  (Some [a_yaml; a_v2_yaml]) "a" (Some 1) ["x=yo"])
           [("x", VStr "yo")] eq_refl Hx "Hi yo").
  reflexivity.
Defined.

(* ------------------------------------------------------------------ *)
(** * The command line: [new] *)








(* ------------------------------------------------------------------ *)
(** * The command line: [validate] *)

Section CliValidate.
Context {E : Engine}.

Lemma validate_all_empty_iff w :
  _loaded (self w) = true ->
  (forall n v t, stored (_templates (self w)) n v t -> syntax_errors_only t) ->
  exists errors,
    validate_all w = (Ok errors, w) /\
    (errors = [] <->
     forall n v t, stored (_templates (self w)) n v t ->
                   PromptTemplate.validate t = Ok []).
Proof.
  intros Hl Hsyn.
  destruct (validate_all_names (_templates (self w)) Dict.empty Hsyn)
    as (errors & Hfold & _ & _ & Hc & Hd).
  exists errors. split; [now rewrite validate_all_eq, Hfold by exact Hl|]. split.
  - intros Hnil n v t Hst.
    destruct (PromptTemplate.validate t) as [[|m ms]|e] eqn:Hv; [reflexivity| |];
      exfalso; (apply Hd; [|exact Hnil]);
      intros Hclean; rewrite (Hclean n v t Hst) in Hv; discriminate.
  - intros Hclean. now apply Hc.
Qed.

(** After a [load] that returns, and with an engine whose [from_string]
    fails with syntax errors only, the [validate] command leaves the
    directory as it is and ends in one of two ways: it returns when
    [validate] finds nothing in any loaded template (in particular when
    there is none), and it exits with status 1 otherwise. *)
Theorem cli_validate_status dir d w :
  load (Cli.registry dir d) = (Ok tt, w) ->
  (forall n v t, stored (_templates (self w)) n v t -> syntax_errors_only t) ->
  let run := Cli.validate dir d in
  Cli.disk_after run = d /\
  (Cli.outcome run = Cli.Returned <->
   forall n v t, stored (_templates (self w)) n v t ->
                 PromptTemplate.validate t = Ok []) /\
  (Cli.outcome run = Cli.Returned \/ Cli.outcome run = Cli.Exited 1).
Proof.
  intros Hload Hsyn. cbv zeta. unfold Cli.validate. rewrite Hload.
  destruct (load_ok_state _ _ Hload) as [Hl Hd]. simpl in Hd.
  rewrite list_prompts_eq by exact Hl.
  destruct (sorted_str (Dict.keys (_templates (self w)))) as [|n0 names] eqn:Hnames.
  - simpl. split; [exact Hd|]. split; [|now left].
    split; [|reflexivity]. intros _ n v t [versions [Hin _]].
    pose proof (sorted_str_perm (Dict.keys (_templates (self w)))) as Hp.
    rewrite Hnames in Hp. apply Permutation_nil in Hp.
    unfold Dict.keys in Hp. apply map_eq_nil in Hp. rewrite Hp in Hin. contradiction.
  - destruct (validate_all_empty_iff w Hl Hsyn) as (errors & Hv & Hiff).
    rewrite Hv. destruct errors as [|kv errors].
    + simpl. split; [exact Hd|]. split; [|now left].
      split; [intros _; now apply Hiff | reflexivity].
    + simpl. split; [exact Hd|]. split; [|now right].
      split; [discriminate|]. intros Hclean. apply Hiff in Hclean. discriminate.
Qed.

End CliValidate.

Lemma cli_validate_status_witness :
  Cli.outcome (@Cli.validate interpolation_engine "prompts"
                 (Some [example_yaml; zero_yaml; a_yaml])) = Cli.Exited 1 /\
  Cli.outcome (@Cli.validate interpolation_engine "prompts"
                 (Some [a_yaml; a_v2_yaml])) = Cli.Returned.
Proof.
  split.
  - destruct (@cli_validate_status interpolation_engine "prompts"
                (Some [example_yaml; zero_yaml; a_yaml]) _ eq_refl)
      as (_ & _ & [Hr|He]).
    + intros n v t _. apply interpolation_engine_syntax_only.
    + discriminate Hr.
    + exact He.
  - destruct (@cli_validate_status interpolation_engine "prompts"
                (Some [a_yaml; a_v2_yaml]) _ eq_refl)
      as (_ & _ & [Hr|He]).
    + intros n v t _. apply interpolation_engine_syntax_only.
    + exact Hr.
    + discriminate He.
Defined.

(* ------------------------------------------------------------------ *)
(** * The command line: the [--var] options of [render] *)





(* ------------------------------------------------------------------ *)
(** * The command line: [init] *)

Lemma exists_file_false_top_level name files f :
  Disk.exists_file name (Some files) = false ->
  In f files -> top_level name f = false.
Proof.
  simpl. intros Hex Hin.
  destruct (top_level name f) eqn:Hf; [|reflexivity].
  rewrite <- Hex. symmetry. apply existsb_exists. exists f. split; [exact Hin|].
  exact Hf.
Qed.

Lemma cli_init_disk dir d :
  Cli.disk_after (Cli.init dir d) =
  if Disk.exists_file "example.yaml" d then d
  else Some (files_of d ++ [example_yaml])%list.
Proof.
  unfold Cli.init. rewrite init_prompts_dir_eq.
  cbn -[Disk.exists_file Disk.write Disk.mkdir example_data].
  destruct d as [files|].
  - cbn [Disk.mkdir].
    destruct (Disk.exists_file "example.yaml" (Some files)) eqn:Hex; [reflexivity|].
    cbn [Disk.write files_of]. now rewrite (write_file_new _ _ _ Hex).
  - reflexivity.
Qed.

(** The [init] command always returns and always prints the same two
    lines, the second saying that [example.yaml] was created.  When the
    directory has an [example.yaml] already, nothing is written.
    Otherwise the example document is added to the directory, and, when
    no other document of the directory is version 1 of ["example"] and
    the directory loads, a registry opened on it afterwards finds the
    example template under that name and version. *)
Theorem cli_init_example dir d :
  let run := Cli.init dir d in
  Cli.outcome run = Cli.Returned /\
  Cli.printed run =
    [Cli.Print ("[green]Initialized prompts directory at:[/green] " ++ dir);
     Cli.Print "[dim]Created example.yaml template[/dim]"] /\
  (Disk.exists_file "example.yaml" d = true -> Cli.disk_after run = d) /\
  (Disk.exists_file "example.yaml" d = false ->
   Cli.disk_after run = Some (files_of d ++ [example_yaml])%list /\
   ((forall f t,
       In f (scan (files_of d)) ->
       parsed_template f = Ok (Some t) ->
       ~ (PromptTemplate.name t = "example" /\ PromptTemplate.version t = 1)) ->
    fst (load (Cli.registry dir (Cli.disk_after run))) = Ok tt ->
    fst (get "example" (Some 1) (Cli.registry dir (Cli.disk_after run)))
      = Ok (Some example_template))).
Proof.
  cbv zeta. split; [|split; [|split]].
  - unfold Cli.init. now rewrite init_prompts_dir_eq.
  - unfold Cli.init. now rewrite init_prompts_dir_eq.
  - intros Hex. now rewrite cli_init_disk, Hex.
  - intros Hex. rewrite cli_init_disk, Hex. split; [reflexivity|].
    intros Hother Hok.
    set (files' := (files_of d ++ [example_yaml])%list) in *.
    destruct (load_ok_lookup (Cli.registry dir (Some files')) files' Hok eq_refl)
      as [_ Hlk].
    assert (Hlast : last_entry "example" 1 (scan files') = Some example_template).
    { apply last_entry_unique with (f := example_yaml).
      - apply in_scan; [apply in_or_app; right; now left | now left].
      - reflexivity.
      - reflexivity.
      - reflexivity.
      - intros f' t' Hin' Hp' Hn' Hv'. apply scan_iff in Hin'.
        destruct Hin' as [Hin' Hglob]. apply in_app_or in Hin'.
        destruct Hin' as [Hin'|[<-|[]]].
        + exfalso. apply (Hother f' t'); [apply scan_iff; now split | exact Hp' |].
          now split.
        + assert (Hpe : parsed_template example_yaml = Ok (Some example_template))
            by reflexivity.
          rewrite Hpe in Hp'. now injection Hp'. }
    rewrite get_eq.
    assert (He : _ensure_loaded (Cli.registry dir (Some files'))
                 = load (Cli.registry dir (Some files'))) by reflexivity.
    rewrite He.
    destruct (load (Cli.registry dir (Some files'))) as [[[]|e] w2];
      simpl in *; [|discriminate].
    now rewrite get_result_version, Hlk, Hlast.
Qed.

Lemma cli_init_example_witness :
  Cli.disk_after (Cli.init "prompts" None) = Some [example_yaml] /\
  fst (get "example" (Some 1) (Cli.registry "prompts" (Some [example_yaml])))
    = Ok (Some example_template).
Proof.
  destruct (cli_init_example "prompts" None) as (_ & _ & _ & Hnew).
  destruct (Hnew eq_refl) as [Hdisk Hget]. split; [exact Hdisk|].
  apply Hget; [intros f t [] | reflexivity].
Defined.
